(** * HandSepak: dataset_manager/utils/utils.py

    A shallow embedding of the geometry and capture helpers of the [Utils]
    class, and the properties of its documented behaviour.

    Conventions of the embedding.
    - A Python number ([int] or [float]) that carries a pixel coordinate is
      read as the rational number it denotes ([Q]); the rounding error of the
      binary64 operations is not part of the model.  [float('inf')] and
      [float('-inf')], which [anotation_data] uses as initial bounds, are
      explicit ([xfloat]).
    - A Python exception is a value of [exn]; a call that may raise returns a
      [result].
    - Mutable objects (the accumulator list, the file system, the frame
      buffer) are threaded explicitly: a call returns its new state next to
      its result.
    - OpenCV and NumPy calls are kept symbolic ([image]): the model records
      which primitive is applied to which arguments and the shape that
      results, not the pixel values. *)

From Stdlib Require Import ZArith QArith Qround Qabs Qminmax Lia Lqa String Ascii List.
From stdpp Require Import base option list strings pretty gmap fin_maps.

Local Open Scope string_scope.
Local Open Scope Z_scope.

(** ** Exceptions and results *)

Inductive exn : Set :=
| TypeError          (* iterating or unpacking [None] *)
| ValueError         (* [min()] / [max()] of an empty sequence *)
| IndexError         (* sequence index out of range *)
| ZeroDivisionError
| UnboundLocalError  (* a local read before any assignment *)
| Cv2Error           (* [cv2.error], raised by a failed OpenCV assertion *)
| SystemExit         (* [exit(0)] *)
| InvalidInput.      (* the rejection the specification names; no statement
                        of utils.py raises it *)

Inductive result (A : Type) : Type :=
| Ok (a : A)
| Raise (e : exn).
Arguments Ok {A} a.
Arguments Raise {A} e.

#[global] Instance result_ret : MRet result := fun A a => Ok a.
#[global] Instance result_bind : MBind result := fun A B f m =>
  match m with
  | Ok a => f a
  | Raise e => Raise e
  end.

(** [l[i]] for a non-negative literal index. *)
Definition getitem {A} (l : list A) (i : nat) : result A :=
  match l !! i with
  | Some x => Ok x
  | None => Raise IndexError
  end.

(** ** Numbers *)

(** [a / b], Python's true division. *)
Definition truediv (a b : Q) : result Q :=
  if Qeq_bool b 0 then Raise ZeroDivisionError else Ok (a / b)%Q.

(** [int(x)]: truncation toward zero. *)
Definition int_of (x : Q) : Z := Z.quot (Qnum x) (Zpos (Qden x)).

(** Rounding to the nearest integer, ties to the even one: the rounding of
    Python's float formatting. *)
Definition round_half_even (q : Q) : Z :=
  let f := Qfloor q in
  match (q - inject_Z f ?= 1 # 2)%Q with
  | Lt => f
  | Gt => f + 1
  | Eq => if Z.even f then f else f + 1
  end.

(** Left padding with ['0'] up to [n] characters. *)
Fixpoint zeros (n : nat) : string :=
  match n with
  | O => ""
  | S n => String "0" (zeros n)
  end.

Definition zfill (n : nat) (s : string) : string :=
  zeros (n - String.length s) +:+ s.

(** The digits of [n] millionths, as [format(_, '.6f')] prints them. *)
Definition show_micro (n : Z) : string :=
  pretty (n / 1000000) +:+ "." +:+ zfill 6 (pretty (n mod 1000000)).

(** [f"{x:.6f}"]. *)
Definition format_6f (x : Q) : string :=
  (match (x ?= 0)%Q with Lt => "-" | _ => "" end)
  +:+ show_micro (round_half_even (Qabs x * 1000000)).

(** ** [Utils.convert_to_yolo_format] *)

Definition convert_to_yolo_format
    (image_width image_height : Q) (key_points : list Q) : result string :=
  k0 ← getitem key_points 0;
  k2 ← getitem key_points 2;
  x_center ← (h ← truediv (k0 + k2) 2; truediv h image_width);
  k1 ← getitem key_points 1;
  k3 ← getitem key_points 3;
  y_center ← (h ← truediv (k1 + k3) 2; truediv h image_height);
  k2' ← getitem key_points 2;
  k0' ← getitem key_points 0;
  width ← truediv (Qabs (k2' - k0')) image_width;
  k3' ← getitem key_points 3;
  k1' ← getitem key_points 1;
  height ← truediv (Qabs (k3' - k1')) image_height;
  Ok (format_6f x_center +:+ " " +:+ format_6f y_center +:+ " "
      +:+ format_6f width +:+ " " +:+ format_6f height).

(** ** Data model *)

(** A landmark as the detector returns it: normalised coordinates and a
    relative depth. *)
Record landmark : Set := { lm_x : Q; lm_y : Q; lm_z : Q }.

(** [hand_landmarks.landmark]: the landmarks of one hand. *)
Definition hand_landmarks : Set := list landmark.

(** [hand_info.classification]: the labels of the classification entries of
    one hand, best first. *)
Definition hand_info : Set := list string.

(** The detector's answer for one frame.  MediaPipe sets both fields to
    [None] when it detects no hand. *)
Record detection : Set := {
  multi_hand_landmarks : option (list hand_landmarks);
  multi_handedness : option (list hand_info)
}.

(** A position of the accumulator: [(x, y, z)] in pixels. *)
Definition position : Set := (Q * Q * Q)%type.

(** Images, symbolically: a captured array and the OpenCV / NumPy operations
    applied to it. *)
Inductive image : Set :=
| Frame (alto ancho c : Z) (id : nat)
| Crop (src : image) (y1 y2 x1 x2 : Z)                  (* src[y1:y2, x1:x2] *)
| Resize (src : image) (dsize : Z * Z)                  (* INTER_CUBIC *)
| Rectangle (src : image) (pt1 pt2 : Z * Z) (color : Z * Z * Z) (thickness : Z)
| PutText (src : image) (text : string) (org : Z * Z) (scale : Q)
          (color : Z * Z * Z) (thickness : Z).

(** The bounds of a slice [a:b] of an axis of length [n], as NumPy clips
    them. *)
Definition slice_bound (n i : Z) : Z :=
  if i <? 0 then Z.max 0 (i + n) else Z.min i n.

Definition slice_len (n a b : Z) : Z :=
  Z.max 0 (slice_bound n b - slice_bound n a).

(** [img.shape] of a colour image: (rows, columns, channels). *)
Fixpoint shape (img : image) : Z * Z * Z :=
  match img with
  | Frame alto ancho c _ => (alto, ancho, c)
  | Crop src y1 y2 x1 x2 =>
      let '(alto, ancho, c) := shape src in
      (slice_len alto y1 y2, slice_len ancho x1 x2, c)
  | Resize src (w, h) => let '(_, _, c) := shape src in (h, w, c)
  | Rectangle src _ _ _ _ => shape src
  | PutText src _ _ _ _ _ => shape src
  end.

Definition is_empty (img : image) : bool :=
  let '(alto, ancho, _) := shape img in (alto <=? 0) || (ancho <=? 0).

(** [cv2.resize(src, dsize, interpolation=cv2.INTER_CUBIC)]: OpenCV asserts
    that the source is not empty and that the target size is positive. *)
Definition cv2_resize (src : image) (dsize : Z * Z) : result image :=
  if is_empty src || (dsize.1 <=? 0) || (dsize.2 <=? 0)
  then Raise Cv2Error
  else Ok (Resize src dsize).

(** The configuration held by a [Utils] object. *)
Record Utils : Set := {
  DATA_PATH : string;
  actions : list string;
  imgSize : Z;
  size_data : Z;
  save_frequency : Z;
  offset : Z
}.

(** [Utils.__init__]: the two fixed settings. *)
Definition Utils_init (data_path : string) (acts : list string)
    (img_size sz : Z) : Utils :=
  {| DATA_PATH := data_path; actions := acts; imgSize := img_size;
     size_data := sz; save_frequency := 10; offset := 10 |}.

(** ** Minimum and maximum, as Python computes them *)

Definition Qlt_bool (a b : Q) : bool := negb (Qle_bool b a).

(** [min(l, key=key)]: the first element with the least key. *)
Fixpoint min_from {A} (key : A → Q) (best : A) (l : list A) : A :=
  match l with
  | [] => best
  | x :: l => min_from key (if Qlt_bool (key x) (key best) then x else best) l
  end.

Definition py_min {A} (key : A → Q) (l : list A) : result A :=
  match l with
  | [] => Raise ValueError
  | x :: l => Ok (min_from key x l)
  end.

(** [max(l, key=key)]: the first element with the greatest key. *)
Fixpoint max_from {A} (key : A → Q) (best : A) (l : list A) : A :=
  match l with
  | [] => best
  | x :: l => max_from key (if Qlt_bool (key best) (key x) then x else best) l
  end.

Definition py_max {A} (key : A → Q) (l : list A) : result A :=
  match l with
  | [] => Raise ValueError
  | x :: l => Ok (max_from key x l)
  end.

(** Floats with the two infinities. *)
Inductive xfloat : Set :=
| NegInf
| Fin (q : Q)
| PosInf.

Definition xlt (a b : xfloat) : bool :=
  match a, b with
  | NegInf, NegInf => false
  | NegInf, _ => true
  | Fin _, NegInf => false
  | Fin x, Fin y => Qlt_bool x y
  | Fin _, PosInf => true
  | PosInf, _ => false
  end.

(** [min(a, b)] and [max(a, b)]: the first argument wins a tie. *)
Definition min2 (a b : xfloat) : xfloat := if xlt b a then b else a.
Definition max2 (a b : xfloat) : xfloat := if xlt a b then b else a.

(** [a + q] and [a - q] for a finite [q]. *)
Definition xadd (a : xfloat) (q : Q) : xfloat :=
  match a with
  | Fin x => Fin (x + q)%Q
  | inf => inf
  end.

Definition xsub (a : xfloat) (q : Q) : xfloat :=
  match a with
  | Fin x => Fin (x - q)%Q
  | inf => inf
  end.

(** The value of a bound once a landmark has been seen; the infinities do not
    reach the conversion (see [bounds_finite]). *)
Definition finite_part (a : xfloat) : Q :=
  match a with
  | Fin x => x
  | _ => 0%Q
  end.

(** [l[0::2]]. *)
Fixpoint stride2 {A} (l : list A) : list A :=
  match l with
  | [] => []
  | x :: l' => x :: match l' with [] => [] | _ :: l'' => stride2 l'' end
  end.

(** A [for] loop whose body may raise. *)
Fixpoint foldM {A S} (body : S → A → result S) (s : S) (l : list A) : result S :=
  match l with
  | [] => Ok s
  | x :: l => s' ← body s x; foldM body s' l
  end.

(** ** [Utils.anotation_data] *)

Definition nl : string := String (ascii_of_nat 10) "".

(** [open(path, 'a')]: the file exists afterwards. *)
Definition open_append (fs : gmap string string) (path : string)
    : gmap string string :=
  match fs !! path with
  | Some _ => fs
  | None => <[path := ""]> fs
  end.

(** [f.write(s)] on a file opened for appending. *)
Definition write_append (fs : gmap string string) (path s : string)
    : gmap string string :=
  <[path := default "" (fs !! path) +:+ s]> fs.

(** The locals of [anotation_data] that live across the loop; [b_dims] is
    [(alto, ancho)], unbound until the first landmark is visited. *)
Record locals : Set := {
  b_x_min : xfloat; b_y_min : xfloat; b_x_max : xfloat; b_y_max : xfloat;
  b_dims : option (Z * Z)
}.

(** The inner loop: the key points of one hand, [[x0, y0, x1, y1, ...]]. *)
Definition hand_keypoints (img : image) (dims : option (Z * Z))
    (hand : hand_landmarks) : list Q * option (Z * Z) :=
  foldl (fun '(keypoints, _) lm =>
           let '(alto, ancho, c) := shape img in
           let x_rel := (lm_x lm * inject_Z ancho)%Q in
           let y_rel := (lm_y lm * inject_Z alto)%Q in
           ((keypoints ++ [x_rel; y_rel])%list, Some (alto, ancho)))
        ([], dims) hand.

(** One iteration of the outer loop. *)
Definition scan_hand (img : image) (st : locals) (hand : hand_landmarks)
    : result locals :=
  let '(keypoints, dims) := hand_keypoints img (b_dims st) hand in
  hand_x_min ← py_min id (stride2 keypoints);
  hand_y_min ← py_min id (stride2 (tail keypoints));
  hand_x_max ← py_max id (stride2 keypoints);
  hand_y_max ← py_max id (stride2 (tail keypoints));
  Ok {| b_x_min := min2 (b_x_min st) (Fin hand_x_min);
        b_y_min := min2 (b_y_min st) (Fin hand_y_min);
        b_x_max := max2 (b_x_max st) (Fin hand_x_max);
        b_y_max := max2 (b_y_max st) (Fin hand_y_max);
        b_dims := dims |}.

Definition locals_init : locals :=
  {| b_x_min := PosInf; b_y_min := PosInf;
     b_x_max := NegInf; b_y_max := NegInf; b_dims := None |}.

Definition anotation_data (results : detection) (img : image)
    (annotation_file : string) (class_index : Z) (fs : gmap string string)
    : result unit * gmap string string :=
  let fs := open_append fs annotation_file in
  match multi_hand_landmarks results with
  | None => (Raise TypeError, fs)
  | Some hands =>
      match foldM (scan_hand img) locals_init hands with
      | Raise e => (Raise e, fs)
      | Ok st =>
          let x_min := xsub (b_x_min st) 20 in
          let y_min := xsub (b_y_min st) 20 in
          let x_max := xadd (b_x_max st) 20 in
          let y_max := xadd (b_y_max st) 20 in
          match b_dims st with
          | None => (Raise UnboundLocalError, fs)
          | Some (alto, ancho) =>
              match convert_to_yolo_format (inject_Z ancho) (inject_Z alto)
                      [finite_part x_min; finite_part y_min;
                       finite_part x_max; finite_part y_max] with
              | Raise e => (Raise e, fs)
              | Ok yolo =>
                  let annotation_data := pretty class_index +:+ " " +:+ yolo in
                  (Ok (), write_append fs annotation_file (annotation_data +:+ nl))
              end
          end
      end
  end.

(** ** [Utils.get_position] and [Utils.Detect_hand_type] *)

(** The accumulator is a mutable list: both functions return its final
    state next to their result. *)
Definition get_position (positions : list position) (results : detection)
    (copie_img : image) : result unit * list position :=
  match multi_hand_landmarks results with
  | None => (Raise TypeError, positions)
  | Some hands =>
      (Ok (),
       foldl (fun positions hand =>
                foldl (fun positions lm =>
                         let '(alto, ancho, c) := shape copie_img in
                         (positions ++ [(lm_x lm * inject_Z ancho,
                                         lm_y lm * inject_Z alto,
                                         lm_z lm * inject_Z ancho)%Q])%list)
                      positions hand)
             positions hands)
  end.

(** The value returned is [Some] of the accumulator, or [None] when the
    function falls off its end.  The [return] is the last statement of the
    loop body, so the body runs for the first element only. *)
Definition Detect_hand_type (hand_type : string) (results : detection)
    (positions : list position) (copie_img : image)
    : result (option (list position)) * list position :=
  match multi_handedness results with
  | None => (Raise TypeError, positions)
  | Some [] => (Ok None, positions)
  | Some (hand_info :: _) =>
      match getitem hand_info 0 with
      | Raise e => (Raise e, positions)
      | Ok hand_types =>
          let '(r1, positions) :=
            if String.eqb hand_types hand_type
            then get_position positions results copie_img
            else (Ok (), positions) in
          match r1 with
          | Raise e => (Raise e, positions)
          | Ok _ =>
              let '(r2, positions) :=
                if String.eqb hand_type "all"
                then get_position positions results copie_img
                else (Ok (), positions) in
              match r2 with
              | Raise e => (Raise e, positions)
              | Ok _ => (Ok (Some positions), positions)
              end
          end
      end
  end.

(** ** [Utils.Draw_Bound_Boxes] and [Utils.Get_image_resized] *)

Definition pos_x (p : position) : Q := p.1.1.
Definition pos_y (p : position) : Q := p.1.2.

(** The four [int(min(...))] / [int(max(...))] lines the two methods share. *)
Definition bounding_box (positions : list position) : result (Z * Z * Z * Z) :=
  px ← py_min pos_x positions;
  let x_min := int_of (pos_x px) in
  py ← py_min pos_y positions;
  let y_min := int_of (pos_y py) in
  qx ← py_max pos_x positions;
  let x_max := int_of (pos_x qx) in
  qy ← py_max pos_y positions;
  let y_max := int_of (pos_y qy) in
  Ok (x_min, y_min, x_max, y_max).

(** The rectangle [Draw_Bound_Boxes] would draw, and its test that the
    rectangle fits. *)
Definition padded_rectangle (self : Utils) (x1 y1 x2 y2 : Z)
    : (Z * Z) * (Z * Z) :=
  ((x1 - offset self - 40, y1 - offset self - 15),
   (x2 - offset self + 50, y2 - offset self + 40)).

(** The frame buffer is mutated in place: the result is its final state. *)
Definition Draw_Bound_Boxes (self : Utils) (positions : list position)
    (frame : image) (cls : string) : result image :=
  '(x_min, y_min, x_max, y_max) ← bounding_box positions;
  let width := x_max - x_min in
  let height := y_max - y_min in
  let '(x1, y1) := (x_min, y_min) in
  let '(x2, y2) := (x_min + width, y_min + height) in
  if (y1 - offset self - 15 >=? 0) && (y2 - offset self + 40 <=? (shape frame).1.1)
     && (x1 - offset self - 40 >=? 0) && (x2 - offset self + 50 <=? (shape frame).1.2)
  then
    let frame := Rectangle frame (x1 - offset self - 40, y1 - offset self - 15)
                   (x2 - offset self + 50, y2 - offset self + 40) (0, 255, 0) 3 in
    let frame := PutText frame cls (x1 - offset self - 40, y1 - offset self - 20)
                   (60 # 100) (225, 255, 255) 1 in
    Ok frame
  else Ok frame.

Definition Get_image_resized (self : Utils) (positions : list position)
    (copie_img : image) : result image :=
  let '(alto, ancho, c) := shape copie_img in
  '(x_min, y_min, x_max, y_max) ← bounding_box positions;
  let width := x_max - x_min in
  let height := y_max - y_min in
  let centro_x := int_of (inject_Z (x_min + x_max) / 2) in
  let centro_y := int_of (inject_Z (y_min + y_max) / 2) in
  let lado := Z.max width height in
  let x1 := Z.max 0 (centro_x - int_of (inject_Z lado / 2) - 50) in
  let y1 := Z.max 0 (centro_y - int_of (inject_Z lado / 2) - 50) in
  let ancho := Z.min (ancho - x1) (lado + 100) in
  let alto := Z.min (alto - y1) (lado + 100) in
  let '(x2, y2) := (x1 + ancho, y1 + alto) in
  let resized_hand := Crop copie_img y1 y2 x1 x2 in
  cv2_resize resized_hand (imgSize self, imgSize self).

(** ** [Utils.Save_resized_hand] *)

(** [os.path.join] (posixpath), one component at a time. *)
Fixpoint ends_with_sep (s : string) : bool :=
  match s with
  | EmptyString => false
  | String c EmptyString => Ascii.eqb c "/"
  | String _ s' => ends_with_sep s'
  end.

Definition path_join2 (path b : string) : string :=
  if String.prefix "/" b then b
  else if String.eqb path "" || ends_with_sep path then path +:+ b
  else path +:+ "/" +:+ b.

Definition os_path_join (a b c : string) : string :=
  path_join2 (path_join2 a b) c.

(** The image files on disk: the paths that exist, with their contents. *)
Definition os_path_exists (fs : gmap string image) (path : string) : bool :=
  bool_decide (is_Some (fs !! path)).

Definition cv2_imwrite (fs : gmap string image) (path : string) (img : image)
    : gmap string image :=
  <[path := img]> fs.

Definition image_name (sequence : nat) (hand_type : string) (count : Z)
    : string :=
  "sequence " +:+ pretty sequence +:+ " capture " +:+ hand_type +:+ " "
  +:+ pretty count +:+ ".png".

Definition new_image_name (sequence : nat) (hand_type : string) (count : Z)
    (index : nat) : string :=
  "sequence " +:+ pretty sequence +:+ " capture " +:+ hand_type +:+ " "
  +:+ pretty count +:+ "_" +:+ pretty index +:+ ".png".

(** The [while True] loop, run for at most [fuel] iterations: [None] when the
    fuel runs out before a free name is met. *)
Fixpoint probe (fuel : nat) (fs : gmap string image) (candidate : nat → string)
    (index : nat) : option string :=
  match fuel with
  | O => None
  | S fuel =>
      let new_image_path := candidate index in
      if negb (os_path_exists fs new_image_path)
      then Some new_image_path
      else probe fuel fs candidate (S index)
  end.

(** The body of the two nested loops.  The probe is given one more iteration
    than there are files, which [probe_least_free] shows is never used up. *)
Definition save_one (self : Utils) (resized_hand : image) (count : Z)
    (hand_type action : string) (fs : gmap string image) (sequence : nat)
    : option (gmap string image) :=
  let image_path :=
    os_path_join (DATA_PATH self) action (image_name sequence hand_type count) in
  image_path ←
    (if os_path_exists fs image_path
     then probe (S (size fs)) fs
            (fun index => os_path_join (DATA_PATH self) action
                            (new_image_name sequence hand_type count index)) 1
     else Some image_path);
  Some (cv2_imwrite fs image_path resized_hand).

(** A [for] loop whose body may fail to terminate within its fuel. *)
Fixpoint foldO {A S} (body : S → A → option S) (s : S) (l : list A) : option S :=
  match l with
  | [] => Some s
  | x :: l => s' ← body s x; foldO body s' l
  end.

(** [None]: some probe ran out of fuel.  Otherwise the result of the call
    ([exit(0)] raises [SystemExit]) and the files on disk afterwards. *)
Definition Save_resized_hand (self : Utils) (resized_hand : image) (count : Z)
    (hand_type : string) (fs : gmap string image)
    : option (result unit * gmap string image) :=
  fs ← foldO (fun fs action =>
                foldO (save_one self resized_hand count hand_type action) fs
                      (seq 0 (Z.to_nat (save_frequency self))))
             fs (actions self);
  Some (match truediv (inject_Z (size_data self))
                      (inject_Z (save_frequency self)) with
        | Raise e => Raise e
        | Ok quota =>
            if Qle_bool quota (inject_Z count) then Raise SystemExit else Ok ()
        end, fs).

(** ** Vocabulary of the properties and sample inputs *)

Section Vocabulary.
Local Open Scope Q_scope.

(** [m] is an element of [l] whose key no element of [l] undercuts. *)
Definition least {A} (key : A → Q) (m : A) (l : list A) : Prop :=
  In m l ∧ Forall (λ x, key m <= key x) l.

Definition greatest {A} (key : A → Q) (m : A) (l : list A) : Prop :=
  In m l ∧ Forall (λ x, key x <= key m) l.

(** The running bounds of [anotation_data]: infinite before the first hand,
    then an extremum of the coordinates seen. *)
Definition lower_bound_of (b : xfloat) (l : list Q) : Prop :=
  match b with
  | PosInf => l = []
  | Fin m => least id m l
  | NegInf => False
  end.

Definition upper_bound_of (b : xfloat) (l : list Q) : Prop :=
  match b with
  | NegInf => l = []
  | Fin m => greatest id m l
  | PosInf => False
  end.

(** A landmark in pixels, and the points of all the hands of a frame. *)
Definition pixel_xy (img : image) (lm : landmark) : Q * Q :=
  (lm_x lm * inject_Z (shape img).1.2, lm_y lm * inject_Z (shape img).1.1).

Definition pixel_points (img : image) (hands : list hand_landmarks)
    : list (Q * Q) :=
  concat (map (map (pixel_xy img)) hands).

Definition bounds_of (st : locals) (pts : list (Q * Q)) : Prop :=
  lower_bound_of (b_x_min st) (map fst pts)
  ∧ lower_bound_of (b_y_min st) (map snd pts)
  ∧ upper_bound_of (b_x_max st) (map fst pts)
  ∧ upper_bound_of (b_y_max st) (map snd pts).

Definition lm_at (x y : Q) : landmark := {| lm_x := x; lm_y := y; lm_z := 0 |}.

(** Two hands in opposite corners of a 640 x 480 frame. *)
Definition two_hands : detection :=
  {| multi_hand_landmarks :=
       Some [[lm_at (1 # 10) (1 # 10); lm_at (2 # 10) (3 # 10)];
             [lm_at (7 # 10) (6 # 10); lm_at (9 # 10) (8 # 10)]];
     multi_handedness := Some [["Left"%string]; ["Right"%string]] |}.

Definition vga : image := Frame 480 640 3 0.

(** A frame in which the detector found nothing. *)
Definition no_hands : detection :=
  {| multi_hand_landmarks := None; multi_handedness := None |}.

Definition pixel_xyz (img : image) (lm : landmark) : position :=
  (lm_x lm * inject_Z (shape img).1.2,
   lm_y lm * inject_Z (shape img).1.1,
   lm_z lm * inject_Z (shape img).1.2).

(** The positions of all the landmarks of all the hands, in order. *)
Definition all_positions (img : image) (hands : list hand_landmarks)
    : list position :=
  concat (map (map (pixel_xyz img)) hands).

(** The test of [Detect_hand_type] on a label. *)
Definition selects (hand_type label : string) : bool :=
  String.eqb label hand_type || String.eqb hand_type "all".

End Vocabulary.

(** The box of §4.5: each side is an extremal coordinate, truncated. *)
Definition is_bounding_box (positions : list position) (b : Z * Z * Z * Z) : Prop :=
  let '(x_min, y_min, x_max, y_max) := b in
  (∃ p, least pos_x p positions ∧ x_min = int_of (pos_x p))
  ∧ (∃ p, least pos_y p positions ∧ y_min = int_of (pos_y p))
  ∧ (∃ p, greatest pos_x p positions ∧ x_max = int_of (pos_x p))
  ∧ (∃ p, greatest pos_y p positions ∧ y_max = int_of (pos_y p)).

(** The rectangle lies in the frame: the four comparisons of the guard. *)
Definition fits_frame (frame : image) (r : (Z * Z) * (Z * Z)) : Prop :=
  let '((x_left, y_top), (x_right, y_bottom)) := r in
  0 <= x_left ∧ 0 <= y_top
  ∧ x_right <= (shape frame).1.2 ∧ y_bottom <= (shape frame).1.1.

Definition sample_utils : Utils := Utils_init "data" ["hello"%string] 300 100.

(** The region [Get_image_resized] cuts out for a box. *)
Definition crop_region (alto ancho : Z) (b : Z * Z * Z * Z) : Z * Z * Z * Z :=
  let '(x_min, y_min, x_max, y_max) := b in
  let lado := Z.max (x_max - x_min) (y_max - y_min) in
  let x1 := Z.max 0 ((x_min + x_max) ÷ 2 - lado ÷ 2 - 50) in
  let y1 := Z.max 0 ((y_min + y_max) ÷ 2 - lado ÷ 2 - 50) in
  (x1, y1, x1 + Z.min (ancho - x1) (lado + 100), y1 + Z.min (alto - y1) (lado + 100)).

(** A directory in which the canonical name and its first variant exist. *)
Definition taken_twice : gmap string image :=
  {[ "data/hello/sequence 0 capture Left 3.png"%string := Frame 300 300 3 1;
     "data/hello/sequence 0 capture Left 3_1.png"%string := Frame 300 300 3 2 ]}.


(** * Properties *)

(** ** Numbers and formatting *)

Section Numbers.
Local Open Scope Q_scope.

Lemma truediv_nonzero (a b : Q) : ¬ b == 0 → truediv a b = Ok (a / b).
Proof.
  intros Hb. unfold truediv.
  destruct (Qeq_bool b 0) eqn:E; [|reflexivity].
  apply Qeq_bool_iff in E. contradiction.
Qed.


Lemma truediv_zero (a b : Q) : b == 0 → truediv a b = Raise ZeroDivisionError.
Proof.
  intros Hb. unfold truediv. apply Qeq_bool_iff in Hb. now rewrite Hb.
Qed.

#[global] Instance round_half_even_comp : Proper (Qeq ==> eq) round_half_even.
Proof.
  intros q q' E. unfold round_half_even.
  rewrite (Qfloor_comp _ _ E).
  assert (q - inject_Z (Qfloor q') == q' - inject_Z (Qfloor q')) as -> by now rewrite E.
  reflexivity.
Qed.

#[global] Instance format_6f_comp : Proper (Qeq ==> eq) format_6f.
Proof.
  intros x x' E. unfold format_6f.
  rewrite (Qcompare_comp _ _ E 0 0 (Qeq_refl 0)).
  assert (Qabs x * 1000000 == Qabs x' * 1000000) as -> by now rewrite E.
  reflexivity.
Qed.



(** The rounding of [format_6f] is to a nearest integer. *)
Lemma round_half_even_nearest (q : Q) :
  Qabs (inject_Z (round_half_even q) - q) <= 1 # 2.
Proof.
  unfold round_half_even.
  pose proof (Qfloor_le q) as Hlo. pose proof (Qlt_floor q) as Hhi.
  rewrite inject_Z_plus in Hhi. change (inject_Z 1) with 1 in Hhi.
  apply Qabs_Qle_condition.
  destruct (q - inject_Z (Qfloor q) ?= 1 # 2) eqn:E.
  - apply Qeq_alt in E. destruct (Z.even (Qfloor q));
      rewrite ?inject_Z_plus; change (inject_Z 1) with 1; lra.
  - apply Qlt_alt in E. lra.
  - apply Qgt_alt in E. rewrite inject_Z_plus. change (inject_Z 1) with 1. lra.
Qed.

End Numbers.

Example convert_to_yolo_format_example :
  convert_to_yolo_format 640 480 [100; 50; 300; 250]%Q
  = Ok "0.312500 0.312500 0.312500 0.416667".
Proof. vm_compute. reflexivity. Qed.

Example format_tie : format_6f (1 # 128) = "0.007812".
Proof. vm_compute. reflexivity. Qed.

Example format_neg : format_6f (-1 # 1000000000) = "-0.000000".
Proof. vm_compute. reflexivity. Qed.

(** ** YOLO conversion *)

Section Yolo.
Local Open Scope Q_scope.




Lemma convert_to_yolo_format_eq (W H x1 y1 x2 y2 : Q) :
  ¬ W == 0 → ¬ H == 0 →
  convert_to_yolo_format W H [x1; y1; x2; y2]
  = Ok (format_6f ((x1 + x2) / 2 / W) +:+ " "
        +:+ format_6f ((y1 + y2) / 2 / H) +:+ " "
        +:+ format_6f (Qabs (x2 - x1) / W) +:+ " "
        +:+ format_6f (Qabs (y2 - y1) / H))%string.
Proof.
  intros HW HH. unfold convert_to_yolo_format. cbn [getitem lookup list_lookup mbind result_bind].
  rewrite !(truediv_nonzero _ 2) by (intros E; discriminate E).
  cbn [mbind result_bind].
  rewrite !(truediv_nonzero _ W HW), !(truediv_nonzero _ H HH).
  reflexivity.
Qed.



(** C9.  Swapping the two corners of the box does not change the output
    (nor the error, when a dimension is zero). *)
Theorem convert_to_yolo_format_corner_swap (W H x1 y1 x2 y2 : Q) :
  convert_to_yolo_format W H [x1; y1; x2; y2]
  = convert_to_yolo_format W H [x2; y2; x1; y1].
Proof.
  destruct (Qeq_dec W 0) as [HW|HW].
  { unfold convert_to_yolo_format. cbn [getitem lookup list_lookup mbind result_bind].
    rewrite !(truediv_nonzero _ 2) by (intros E; discriminate E).
    cbn [mbind result_bind]. now rewrite !(truediv_zero _ W HW). }
  destruct (Qeq_dec H 0) as [HH|HH].
  { unfold convert_to_yolo_format. cbn [getitem lookup list_lookup mbind result_bind].
    rewrite !(truediv_nonzero _ 2) by (intros E; discriminate E).
    cbn [mbind result_bind]. rewrite !(truediv_nonzero _ W HW).
    cbn [mbind result_bind]. now rewrite !(truediv_zero _ H HH). }
  rewrite !convert_to_yolo_format_eq by assumption.
  assert (x2 + x1 == x1 + x2) as -> by ring.
  assert (y2 + y1 == y1 + y2) as -> by ring.
  assert (Qabs (x1 - x2) == Qabs (x2 - x1)) as ->.
  { rewrite <- (Qabs_opp (x2 - x1)). apply Qabs_wd. ring. }
  assert (Qabs (y1 - y2) == Qabs (y2 - y1)) as ->.
  { rewrite <- (Qabs_opp (y2 - y1)). apply Qabs_wd. ring. }
  reflexivity.
Qed.
End Yolo.

(** ** Extrema *)

Section Extrema.
Local Open Scope Q_scope.

Lemma Qlt_bool_iff (a b : Q) : Qlt_bool a b = true ↔ a < b.
Proof.
  unfold Qlt_bool. rewrite negb_true_iff, <- not_true_iff_false, Qle_bool_iff.
  split; [apply Qnot_le_lt | apply Qlt_not_le].
Qed.

Lemma Qlt_bool_false (a b : Q) : Qlt_bool a b = false ↔ b <= a.
Proof.
  unfold Qlt_bool. rewrite negb_false_iff. apply Qle_bool_iff.
Qed.

Lemma min_from_least {A} (key : A → Q) (l : list A) (best : A) :
  least key (min_from key best l) (best :: l).
Proof.
  revert best. induction l as [|x l IH]; intros best; cbn [min_from].
  - split; [now left | constructor; [apply Qle_refl | constructor]].
  - destruct (IH (if Qlt_bool (key x) (key best) then x else best)) as [Hin Hall].
    apply Forall_cons_1 in Hall as [Hb Hall].
    destruct (Qlt_bool (key x) (key best)) eqn:E.
    + apply Qlt_bool_iff in E. split.
      * destruct Hin as [<-|Hin]; [right; now left | right; now right].
      * constructor; [lra | constructor; assumption].
    + apply Qlt_bool_false in E. split.
      * destruct Hin as [<-|Hin]; [now left | right; now right].
      * constructor; [assumption | constructor; [lra | assumption]].
Qed.

Lemma max_from_greatest {A} (key : A → Q) (l : list A) (best : A) :
  greatest key (max_from key best l) (best :: l).
Proof.
  revert best. induction l as [|x l IH]; intros best; cbn [max_from].
  - split; [now left | constructor; [apply Qle_refl | constructor]].
  - destruct (IH (if Qlt_bool (key best) (key x) then x else best)) as [Hin Hall].
    apply Forall_cons_1 in Hall as [Hb Hall].
    destruct (Qlt_bool (key best) (key x)) eqn:E.
    + apply Qlt_bool_iff in E. split.
      * destruct Hin as [<-|Hin]; [right; now left | right; now right].
      * constructor; [lra | constructor; assumption].
    + apply Qlt_bool_false in E. split.
      * destruct Hin as [<-|Hin]; [now left | right; now right].
      * constructor; [assumption | constructor; [lra | assumption]].
Qed.

Lemma py_min_least {A} (key : A → Q) (l : list A) :
  l ≠ [] → ∃ m, py_min key l = Ok m ∧ least key m l.
Proof.
  destruct l as [|x l]; [congruence|]. intros _.
  exists (min_from key x l). split; [reflexivity | apply min_from_least].
Qed.

Lemma py_max_greatest {A} (key : A → Q) (l : list A) :
  l ≠ [] → ∃ m, py_max key l = Ok m ∧ greatest key m l.
Proof.
  destruct l as [|x l]; [congruence|]. intros _.
  exists (max_from key x l). split; [reflexivity | apply max_from_greatest].
Qed.

Lemma least_app_l {A} (key : A → Q) m l l' h :
  least key m l → least key h l' → key m <= key h → least key m (l ++ l').
Proof.
  intros [Hin Hall] [Hin' Hall'] Hle. split.
  - apply in_or_app. now left.
  - apply Forall_app. split; [assumption|].
    eapply Forall_impl; [exact Hall'|]. cbn. intros; lra.
Qed.

Lemma least_app_r {A} (key : A → Q) m l l' h :
  least key m l → least key h l' → key h <= key m → least key h (l ++ l').
Proof.
  intros [Hin Hall] [Hin' Hall'] Hle. split.
  - apply in_or_app. now right.
  - apply Forall_app. split; [|assumption].
    eapply Forall_impl; [exact Hall|]. cbn. intros; lra.
Qed.

Lemma greatest_app_l {A} (key : A → Q) m l l' h :
  greatest key m l → greatest key h l' → key h <= key m → greatest key m (l ++ l').
Proof.
  intros [Hin Hall] [Hin' Hall'] Hle. split.
  - apply in_or_app. now left.
  - apply Forall_app. split; [assumption|].
    eapply Forall_impl; [exact Hall'|]. cbn. intros; lra.
Qed.

Lemma greatest_app_r {A} (key : A → Q) m l l' h :
  greatest key m l → greatest key h l' → key m <= key h → greatest key h (l ++ l').
Proof.
  intros [Hin Hall] [Hin' Hall'] Hle. split.
  - apply in_or_app. now right.
  - apply Forall_app. split; [|assumption].
    eapply Forall_impl; [exact Hall|]. cbn. intros; lra.
Qed.

Lemma min2_lower_bound (b : xfloat) (l l' : list Q) (h : Q) :
  lower_bound_of b l → least id h l' →
  lower_bound_of (min2 b (Fin h)) (l ++ l').
Proof.
  intros Hb Hh. destruct b as [|m|]; cbn in Hb; [contradiction| |].
  - unfold min2. cbn [xlt]. destruct (Qlt_bool h m) eqn:E; cbn.
    + apply Qlt_bool_iff in E. eapply least_app_r; eauto. cbn; lra.
    + apply Qlt_bool_false in E. eapply least_app_l; eauto.
  - subst l. exact Hh.
Qed.

Lemma max2_upper_bound (b : xfloat) (l l' : list Q) (h : Q) :
  upper_bound_of b l → greatest id h l' →
  upper_bound_of (max2 b (Fin h)) (l ++ l').
Proof.
  intros Hb Hh. destruct b as [|m|]; cbn in Hb; [| |contradiction].
  - subst l. exact Hh.
  - unfold max2. cbn [xlt]. destruct (Qlt_bool m h) eqn:E; cbn.
    + apply Qlt_bool_iff in E. eapply greatest_app_r; eauto. cbn; lra.
    + apply Qlt_bool_false in E. eapply greatest_app_l; eauto.
Qed.

End Extrema.

(** ** The annotation writer *)

Section Annotation.
Local Open Scope Q_scope.

Lemma hand_keypoints_eq (img : image) (dims : option (Z * Z)) (hand : hand_landmarks) :
  hand_keypoints img dims hand
  = (flat_map (λ lm, [(pixel_xy img lm).1; (pixel_xy img lm).2]) hand,
     match hand with
     | [] => dims
     | _ => Some ((shape img).1.1, (shape img).1.2)
     end).
Proof.
  unfold hand_keypoints.
  enough (∀ acc d,
    foldl (λ '(keypoints, _) lm,
             let '(alto, ancho, c) := shape img in
             let x_rel := lm_x lm * inject_Z ancho in
             let y_rel := lm_y lm * inject_Z alto in
             ((keypoints ++ [x_rel; y_rel])%list, Some (alto, ancho)))
          (acc, d) hand
    = ((acc ++ flat_map (λ lm, [(pixel_xy img lm).1; (pixel_xy img lm).2]) hand)%list,
       match hand with
       | [] => d
       | _ => Some ((shape img).1.1, (shape img).1.2)
       end)) as Hgen by apply (Hgen [] dims).
  induction hand as [|lm hand IH]; intros acc d; cbn [foldl flat_map].
  - now rewrite app_nil_r.
  - unfold pixel_xy at 1 2. destruct (shape img) as [[alto ancho] c] eqn:Es.
    cbn [fst snd]. rewrite IH, <- app_assoc. cbn [app fst snd].
    now destruct hand.
Qed.

Lemma stride2_cons {A} (x : A) (l : list A) :
  stride2 (x :: l) = x :: stride2 (tail l).
Proof. now destruct l. Qed.

Lemma stride2_interleave {A B} (f g : A → B) (l : list A) :
  stride2 (flat_map (λ a, [f a; g a]) l) = map f l
  ∧ stride2 (tail (flat_map (λ a, [f a; g a]) l)) = map g l.
Proof.
  induction l as [|a l [IH1 IH2]]; [split; reflexivity|].
  cbn [flat_map app tail map]. rewrite !stride2_cons. cbn [tail].
  now rewrite IH1, IH2.
Qed.

Lemma scan_hand_bounds (img : image) (st : locals) (pts : list (Q * Q))
    (hand : hand_landmarks) :
  hand ≠ [] → bounds_of st pts →
  ∃ st', scan_hand img st hand = Ok st'
         ∧ bounds_of st' (pts ++ map (pixel_xy img) hand)
         ∧ b_dims st' = Some ((shape img).1.1, (shape img).1.2).
Proof.
  intros Hne (Hx & Hy & HX & HY). unfold scan_hand.
  rewrite hand_keypoints_eq.
  destruct (stride2_interleave (λ lm, (pixel_xy img lm).1)
              (λ lm, (pixel_xy img lm).2) hand) as [-> ->].
  assert (map (λ lm, (pixel_xy img lm).1) hand ≠ []) as Hnx by now destruct hand.
  assert (map (λ lm, (pixel_xy img lm).2) hand ≠ []) as Hny by now destruct hand.
  destruct (py_min_least id _ Hnx) as (hx & -> & Hhx).
  destruct (py_min_least id _ Hny) as (hy & -> & Hhy).
  destruct (py_max_greatest id _ Hnx) as (hX & -> & HhX).
  destruct (py_max_greatest id _ Hny) as (hY & -> & HhY).
  cbn [mbind result_bind]. eexists. split; [reflexivity|].
  rewrite <- !(map_map (pixel_xy img) fst), <- !(map_map (pixel_xy img) snd) in *.
  split; [|now destruct hand].
  unfold bounds_of. cbn [b_x_min b_y_min b_x_max b_y_max].
  rewrite !map_app.
  repeat split; auto using min2_lower_bound, max2_upper_bound.
Qed.

Lemma foldM_scan_hand_bounds (img : image) (hands : list hand_landmarks) :
  Forall (λ hand, hand ≠ []) hands →
  ∀ st pts, bounds_of st pts →
  ∃ st', foldM (scan_hand img) st hands = Ok st'
         ∧ bounds_of st' (pts ++ pixel_points img hands)
         ∧ (hands ≠ [] → b_dims st' = Some ((shape img).1.1, (shape img).1.2)).
Proof.
  induction 1 as [|hand hands Hne _ IH]; intros st pts Hst.
  - exists st. cbn. rewrite app_nil_r. split; [reflexivity|]. split; [assumption|]. intros Hc. now contradiction Hc.
  - destruct (scan_hand_bounds img st pts hand Hne Hst) as (st1 & E1 & Hst1 & Hd1).
    destruct (IH st1 _ Hst1) as (st' & E & Hst' & Hd).
    exists st'. cbn [foldM]. rewrite E1. cbn [mbind result_bind]. rewrite E.
    split; [reflexivity|]. split.
    + unfold pixel_points in *. cbn [map concat]. now rewrite app_assoc.
    + intros _. destruct hands as [|h hs]; [|apply Hd; congruence].
      cbn in E. now inversion E; subst.
Qed.

Lemma scan_hand_Ok_nonempty (img : image) (st st' : locals) (hand : hand_landmarks) :
  scan_hand img st hand = Ok st' → hand ≠ [].
Proof. intros E ->. discriminate E. Qed.

Lemma foldM_scan_hand_Ok_nonempty (img : image) (hands : list hand_landmarks) :
  ∀ st st', foldM (scan_hand img) st hands = Ok st' →
            Forall (λ hand, hand ≠ []) hands.
Proof.
  induction hands as [|hand hands IH]; intros st st' E; [constructor|].
  cbn [foldM] in E. destruct (scan_hand img st hand) as [st1|e] eqn:E1; [|discriminate E].
  constructor; [exact (scan_hand_Ok_nonempty _ _ _ _ E1) | exact (IH _ _ E)].
Qed.

(** Once [alto] and [ancho] are bound the four bounds are finite: the
    default of [finite_part] is never used by [anotation_data]. *)
Lemma bounds_finite (img : image) (hands : list hand_landmarks) (st : locals) :
  foldM (scan_hand img) locals_init hands = Ok st →
  is_Some (b_dims st) →
  ∃ x_min y_min x_max y_max,
    b_x_min st = Fin x_min ∧ b_y_min st = Fin y_min
    ∧ b_x_max st = Fin x_max ∧ b_y_max st = Fin y_max.
Proof.
  intros E Hd.
  pose proof (foldM_scan_hand_Ok_nonempty img hands _ _ E) as Hall.
  destruct (foldM_scan_hand_bounds img hands Hall locals_init [])
    as (st' & E' & (Hx & Hy & HX & HY) & _); [repeat split|].
  rewrite E in E'. injection E' as <-. cbn [app] in *.
  assert (pixel_points img hands ≠ []) as Hpts.
  { destruct hands as [|[|lm hand] hands].
    - cbn in E. injection E as <-. now destruct Hd.
    - now apply Forall_cons_1 in Hall as [? _].
    - discriminate. }
  destruct (b_x_min st) as [|x_min|]; cbn in Hx;
    [contradiction| |now destruct (pixel_points img hands)].
  destruct (b_y_min st) as [|y_min|]; cbn in Hy;
    [contradiction| |now destruct (pixel_points img hands)].
  destruct (b_x_max st) as [|x_max|]; cbn in HX;
    [now destruct (pixel_points img hands)| |contradiction].
  destruct (b_y_max st) as [|y_max|]; cbn in HY;
    [now destruct (pixel_points img hands)| |contradiction].
  eauto 10.
Qed.
Lemma write_append_open_append (fs : gmap string string) (path s : string) :
  write_append (open_append fs path) path s
  = <[path := (default "" (fs !! path) +:+ s)%string]> fs.
Proof.
  unfold write_append, open_append.
  destruct (fs !! path) as [v|] eqn:E.
  - now rewrite E.
  - now rewrite lookup_insert_eq, insert_insert_eq.
Qed.

End Annotation.

Section AnnotationMain.
Local Open Scope Q_scope.


End AnnotationMain.

Section ZeroHands.

Lemma open_append_lookup (fs : gmap string string) (path : string) :
  open_append fs path = <[path := default "" (fs !! path)]> fs.
Proof.
  unfold open_append. destruct (fs !! path) as [v|] eqn:E; cbn [default].
  - symmetry. now apply insert_id.
  - reflexivity.
Qed.

(** C3, as the code has it.  No statement guards the empty case: the
    annotation file is opened (and created when absent) first, then the loop
    over the hands raises [TypeError] on [None]; on an empty list the loop is
    skipped and the read of [ancho] raises [UnboundLocalError].  Nothing is
    written, and the error is never [InvalidInput]. *)
Theorem anotation_data_zero_hands (results : detection) (img : image)
    (annotation_file : string) (class_index : Z) (fs : gmap string string) :
  multi_hand_landmarks results = None ∨ multi_hand_landmarks results = Some [] →
  anotation_data results img annotation_file class_index fs
  = (Raise (match multi_hand_landmarks results with
            | None => TypeError
            | Some _ => UnboundLocalError
            end),
     <[annotation_file := default "" (fs !! annotation_file)]> fs)
  ∧ (anotation_data results img annotation_file class_index fs).1
    ≠ Raise InvalidInput.
Proof.
  intros [E|E]; unfold anotation_data; rewrite E; cbn; rewrite open_append_lookup;
    (split; [reflexivity | discriminate]).
Qed.

Lemma anotation_data_zero_hands_witness :
  anotation_data no_hands vga "labels.txt" 0 ∅
  = (Raise TypeError, {["labels.txt"%string := ""%string]}).
Proof.
  destruct (anotation_data_zero_hands no_hands vga "labels.txt" 0 ∅) as [E _].
  - left. reflexivity.
  - rewrite E. vm_compute. reflexivity.
Defined.

(** C3, as stated, fails on a frame without hands: the call is not rejected
    with [InvalidInput]; it raises [TypeError] after it has created the
    file. *)
Lemma anotation_data_InvalidInput_counterexample :
  ¬ (∀ results img annotation_file class_index fs,
       multi_hand_landmarks results = None →
       anotation_data results img annotation_file class_index fs
       = (Raise InvalidInput, fs)).
Proof.
  intros Hclaim.
  specialize (Hclaim no_hands vga "labels.txt"%string 0%Z ∅ eq_refl).
  vm_compute in Hclaim. discriminate Hclaim.
Qed.

End ZeroHands.

(** ** Hand selection *)

Section Selection.
Local Open Scope Q_scope.

Lemma get_position_eq (positions : list position) (results : detection)
    (img : image) (hands : list hand_landmarks) :
  multi_hand_landmarks results = Some hands →
  get_position positions results img
  = (Ok (), (positions ++ all_positions img hands)%list).
Proof.
  intros E. unfold get_position. rewrite E. f_equal. clear E.
  unfold all_positions. revert positions.
  induction hands as [|hand hands IH]; intros positions; cbn [foldl map concat].
  - now rewrite app_nil_r.
  - rewrite IH, app_assoc. f_equal. clear IH.
    revert positions. induction hand as [|lm hand IH]; intros positions; cbn [foldl map].
    + now rewrite app_nil_r.
    + rewrite IH. unfold pixel_xyz at 2.
      destruct (shape img) as [[alto ancho] c]. cbn [fst snd].
      now rewrite <- app_assoc.
Qed.

End Selection.

Section SelectionMain.
Local Open Scope Q_scope.

(** What the first loop iteration does, and the only one that runs: the
    positions of all the hands are appended once for each of the two tests
    that succeeds on the first handedness entry. *)
Lemma Detect_hand_type_eq (hand_type : string) (results : detection)
    (positions : list position) (img : image) (info : hand_info)
    (infos : list hand_info) (hands : list hand_landmarks) (label : string) :
  multi_handedness results = Some (info :: infos) →
  multi_hand_landmarks results = Some hands →
  getitem info 0 = Ok label →
  let acc :=
    ((positions
      ++ (if String.eqb label hand_type then all_positions img hands else []))
      ++ (if String.eqb hand_type "all" then all_positions img hands else []))%list in
  Detect_hand_type hand_type results positions img = (Ok (Some acc), acc).
Proof.
  intros Ei Eh El acc. unfold Detect_hand_type. rewrite Ei, El.
  rewrite !(get_position_eq _ results img hands Eh). subst acc.
  destruct (String.eqb label hand_type), (String.eqb hand_type "all");
    rewrite ?(get_position_eq _ results img hands Eh), ?app_nil_r; reflexivity.
Qed.

(** C7, amended: with at least one hand, none of which the filter selects,
    the accumulator comes back unchanged and no error is raised. *)
Theorem Detect_hand_type_no_match (hand_type : string) (results : detection)
    (positions : list position) (img : image) (infos : list hand_info) :
  multi_handedness results = Some infos →
  infos ≠ [] →
  Forall (λ info, ∃ label, getitem info 0 = Ok label
                           ∧ selects hand_type label = false) infos →
  Detect_hand_type hand_type results positions img
  = (Ok (Some positions), positions).
Proof.
  intros Ei Hne Hall. destruct infos as [|info infos]; [congruence|].
  apply Forall_cons_1 in Hall as [(label & El & Hsel) _].
  apply orb_false_iff in Hsel as [H1 H2].
  unfold Detect_hand_type. now rewrite Ei, El, H1, H2.
Qed.

Lemma Detect_hand_type_no_match_witness :
  Detect_hand_type "Right"
    {| multi_hand_landmarks := Some [[lm_at (1 # 2) (1 # 2)]];
       multi_handedness := Some [["Left"%string]] |}
    [(1, 2, 3)] vga
  = (Ok (Some [(1, 2, 3)]), [(1, 2, 3)]).
Proof.
  apply (Detect_hand_type_no_match "Right" _ _ vga [["Left"%string]]).
  - reflexivity.
  - discriminate.
  - repeat constructor. exists "Left"%string. split; reflexivity.
Defined.

(** C7, as stated, fails without hands: on the detector's [None] the loop
    header raises [TypeError], and on an empty list the function falls off
    its end and returns [None], not the accumulator. *)
Lemma Detect_hand_type_zero_hands_counterexample :
  Detect_hand_type "Left" no_hands [(1, 2, 3)] vga
  = (Raise TypeError, [(1, 2, 3)])
  ∧ Detect_hand_type "Left"
      {| multi_hand_landmarks := Some []; multi_handedness := Some [] |}
      [(1, 2, 3)] vga
    = (Ok None, [(1, 2, 3)]).
Proof. split; reflexivity. Qed.

(** C8, amended: only the first handedness entry is examined, the later ones
    have no influence; when the first entry passes the filter the positions
    of every hand of the frame are appended, not those of the first hand
    only, and when it does not nothing is appended. *)
Theorem Detect_hand_type_first_entry (hand_type : string)
    (positions : list position) (img : image) (info : hand_info)
    (infos : list hand_info) (hands : list hand_landmarks) (label : string) :
  getitem info 0 = Ok label →
  label ≠ "all"%string →
  let results := {| multi_hand_landmarks := Some hands;
                    multi_handedness := Some (info :: infos) |} in
  let acc := if selects hand_type label
             then (positions ++ all_positions img hands)%list
             else positions in
  Detect_hand_type hand_type results positions img = (Ok (Some acc), acc)
  ∧ Detect_hand_type hand_type results positions img
    = Detect_hand_type hand_type
        {| multi_hand_landmarks := Some hands;
           multi_handedness := Some [info] |} positions img.
Proof.
  intros El Hall results acc.
  rewrite (Detect_hand_type_eq hand_type results positions img info infos hands label)
    by (reflexivity || assumption).
  rewrite (Detect_hand_type_eq hand_type _ positions img info [] hands label)
    by (reflexivity || assumption).
  split; [|reflexivity]. subst acc. unfold selects.
  destruct (String.eqb label hand_type) eqn:E1, (String.eqb hand_type "all") eqn:E2;
    cbn [orb]; rewrite ?app_nil_r; try reflexivity.
  apply String.eqb_eq in E1, E2. congruence.
Qed.

Lemma Detect_hand_type_first_entry_witness :
  Detect_hand_type "Left" two_hands [] vga
  = (Ok (Some [(640 # 10, 480 # 10, 0); (1280 # 10, 1440 # 10, 0);
               (4480 # 10, 2880 # 10, 0); (5760 # 10, 3840 # 10, 0)]),
     [(640 # 10, 480 # 10, 0); (1280 # 10, 1440 # 10, 0);
      (4480 # 10, 2880 # 10, 0); (5760 # 10, 3840 # 10, 0)])
  ∧ Detect_hand_type "Right" two_hands [] vga = (Ok (Some []), []).
Proof.
  split.
  - destruct (Detect_hand_type_first_entry "Left" [] vga ["Left"%string]
                [["Right"%string]]
                [[lm_at (1 # 10) (1 # 10); lm_at (2 # 10) (3 # 10)];
                 [lm_at (7 # 10) (6 # 10); lm_at (9 # 10) (8 # 10)]]
                "Left"%string eq_refl) as [E _]; [discriminate|].
    etransitivity; [exact E | vm_compute; reflexivity].
  - vm_compute. reflexivity.
Defined.

(** C8, as stated, fails on two hands of which the first is the left one:
    filtering by [Left] appends the four positions of both hands, not the
    two of the first hand. *)
Lemma Detect_hand_type_first_hand_only_counterexample :
  ∃ acc, Detect_hand_type "Left" two_hands [] vga = (Ok (Some acc), acc)
         ∧ acc ≠ all_positions vga [[lm_at (1 # 10) (1 # 10); lm_at (2 # 10) (3 # 10)]]
         ∧ length acc = 4%nat
         ∧ In (4480 # 10, 2880 # 10, 0) acc.
Proof.
  eexists. split; [vm_compute; reflexivity|].
  split; [vm_compute; discriminate|].
  split; [reflexivity|]. right. right. left. reflexivity.
Qed.

End SelectionMain.

(** ** Bounding box, drawing and cropping *)

Section Box.

Lemma bounding_box_spec (positions : list position) :
  positions ≠ [] →
  ∃ b, bounding_box positions = Ok b ∧ is_bounding_box positions b.
Proof.
  intros Hne. unfold bounding_box.
  destruct (py_min_least pos_x positions Hne) as (px & -> & Hpx).
  destruct (py_min_least pos_y positions Hne) as (py & -> & Hpy).
  destruct (py_max_greatest pos_x positions Hne) as (qx & -> & Hqx).
  destruct (py_max_greatest pos_y positions Hne) as (qy & -> & Hqy).
  cbn [mbind result_bind]. eexists. split; [reflexivity|].
  cbn. repeat split; eexists; (split; [eassumption | reflexivity]).
Qed.

Lemma bounding_box_empty : bounding_box [] = Raise ValueError.
Proof. reflexivity. Qed.

Lemma int_of_half (n : Z) : int_of (inject_Z n / 2) = n ÷ 2.
Proof.
  unfold int_of, Qdiv, Qmult, Qinv, inject_Z. cbn [Qnum Qden].
  now rewrite Z.mul_1_r.
Qed.

(** C6.  The rectangle from [(x_min - offset - 40, y_min - offset - 15)] to
    [(x_max - offset + 50, y_max - offset + 40)] and the caption are drawn
    when that rectangle lies in the frame; otherwise the call returns
    without error and the frame is as it was, in particular when the top of
    the rectangle is at [-1]. *)
Theorem Draw_Bound_Boxes_guard (self : Utils) (positions : list position)
    (frame : image) (cls : string) :
  positions ≠ [] →
  ∃ x_min y_min x_max y_max,
    bounding_box positions = Ok (x_min, y_min, x_max, y_max)
    ∧ is_bounding_box positions (x_min, y_min, x_max, y_max)
    ∧ let r := padded_rectangle self x_min y_min x_max y_max in
      (fits_frame frame r →
       Draw_Bound_Boxes self positions frame cls
       = Ok (PutText (Rectangle frame r.1 r.2 (0, 255, 0) 3) cls
               (x_min - offset self - 40, y_min - offset self - 20)
               (60 # 100) (225, 255, 255) 1))
      ∧ (¬ fits_frame frame r →
         Draw_Bound_Boxes self positions frame cls = Ok frame)
      ∧ (y_min - offset self - 15 = -1 →
         Draw_Bound_Boxes self positions frame cls = Ok frame).
Proof.
  intros Hne.
  destruct (bounding_box_spec positions Hne) as ([[[x_min y_min] x_max] y_max] & E & Hb).
  exists x_min, y_min, x_max, y_max. split; [exact E|]. split; [exact Hb|].
  unfold Draw_Bound_Boxes, padded_rectangle, fits_frame. rewrite E.
  cbn [mbind result_bind fst snd].
  replace (x_min + (x_max - x_min)) with x_max by lia.
  replace (y_min + (y_max - y_min)) with y_max by lia.
  rewrite !Z.geb_leb.
  destruct (Z.leb_spec 0 (y_min - offset self - 15));
    destruct (Z.leb_spec (y_max - offset self + 40) (shape frame).1.1);
    destruct (Z.leb_spec 0 (x_min - offset self - 40));
    destruct (Z.leb_spec (x_max - offset self + 50) (shape frame).1.2);
    cbn [andb]; repeat split; intros; try reflexivity; try lia; tauto.
Qed.

End Box.

Section Crop.

Lemma Draw_Bound_Boxes_guard_witness :
  Draw_Bound_Boxes sample_utils [(100, 24, 0); (200, 250, 0)]%Q vga "A" = Ok vga
  ∧ Draw_Bound_Boxes sample_utils [(100, 100, 0); (200, 250, 0)]%Q vga "A"
    = Ok (PutText (Rectangle vga (50, 75) (240, 280) (0, 255, 0) 3) "A"
            (50, 70) (60 # 100) (225, 255, 255) 1).
Proof.
  split.
  - destruct (Draw_Bound_Boxes_guard sample_utils [(100, 24, 0); (200, 250, 0)]%Q vga "A")
      as (x_min & y_min & x_max & y_max & E & _ & _ & _ & Hedge); [discriminate|].
    vm_compute in E. injection E as <- <- <- <-. apply Hedge. reflexivity.
  - destruct (Draw_Bound_Boxes_guard sample_utils [(100, 100, 0); (200, 250, 0)]%Q vga "A")
      as (x_min & y_min & x_max & y_max & E & _ & Hfit & _ & _); [discriminate|].
    vm_compute in E. injection E as <- <- <- <-.
    etransitivity; [apply Hfit; vm_compute; intuition discriminate | reflexivity].
Defined.

Lemma Get_image_resized_eq (self : Utils) (positions : list position)
    (copie_img : image) (b : Z * Z * Z * Z) :
  bounding_box positions = Ok b →
  Get_image_resized self positions copie_img
  = let '(x1, y1, x2, y2) :=
      crop_region (shape copie_img).1.1 (shape copie_img).1.2 b in
    cv2_resize (Crop copie_img y1 y2 x1 x2) (imgSize self, imgSize self).
Proof.
  intros E. unfold Get_image_resized, crop_region.
  destruct (shape copie_img) as [[alto ancho] c]. rewrite E.
  destruct b as [[[x_min y_min] x_max] y_max].
  cbn [mbind result_bind fst snd]. now rewrite !int_of_half.
Qed.

Lemma int_of_nonneg (q : Q) : (0 <= q)%Q → int_of q = Qfloor q.
Proof.
  destruct q as [n d]. unfold Qle, int_of, Qfloor. cbn [Qnum Qden]. intros H.
  apply Z.quot_div_nonneg; lia.
Qed.

Lemma int_of_opp (q : Q) : int_of (- q) = - int_of q.
Proof.
  destruct q as [n d]. unfold int_of, Qopp. cbn [Qnum Qden].
  now apply Z.quot_opp_l.
Qed.

Lemma int_of_mono (a b : Q) : (a <= b)%Q → int_of a <= int_of b.
Proof.
  intros Hab. destruct (Qlt_le_dec a 0) as [Ha|Ha], (Qlt_le_dec b 0) as [Hb|Hb].
  - assert (int_of (- b) <= int_of (- a)); [|rewrite !int_of_opp in *; lia].
    rewrite !int_of_nonneg by lra. apply Qfloor_resp_le. lra.
  - assert (0 <= int_of (- a)); [|rewrite int_of_opp in *].
    { rewrite int_of_nonneg by lra. change 0 with (Qfloor 0). apply Qfloor_resp_le. lra. }
    assert (0 <= int_of b); [|lia].
    rewrite int_of_nonneg by lra. change 0 with (Qfloor 0). now apply Qfloor_resp_le.
  - lra.
  - rewrite !int_of_nonneg by lra. now apply Qfloor_resp_le.
Qed.

Lemma bounding_box_ordered (positions : list position) (x_min y_min x_max y_max : Z) :
  is_bounding_box positions (x_min, y_min, x_max, y_max) →
  x_min <= x_max ∧ y_min <= y_max.
Proof.
  intros ((p & [_ Hp] & ->) & (p' & [_ Hp'] & ->)
          & (q & [Hq _] & ->) & (q' & [Hq' _] & ->)).
  split; apply int_of_mono.
  - rewrite Forall_forall in Hp. apply Hp. now apply list_elem_of_In.
  - rewrite Forall_forall in Hp'. apply Hp'. now apply list_elem_of_In.
Qed.

Lemma slice_len_inside (n a b : Z) : 0 <= a → a <= b → b <= n → slice_len n a b = b - a.
Proof.
  intros Ha Hab Hb. unfold slice_len, slice_bound.
  destruct (Z.ltb_spec b 0), (Z.ltb_spec a 0); lia.
Qed.

(** C4, amended: when the clamped corner [(x1, y1)] lies inside the frame and
    [imgSize] is positive, the region from [(x1, y1)] to [(x2, y2)] is cut
    out and resized; it lies in the frame, is not empty and is at most
    [side + 100] wide and high, and the image returned is [imgSize] by
    [imgSize]. *)
Theorem Get_image_resized_size (self : Utils) (positions : list position)
    (copie_img : image) :
  positions ≠ [] →
  0 < imgSize self →
  ∃ x_min y_min x_max y_max,
    bounding_box positions = Ok (x_min, y_min, x_max, y_max)
    ∧ is_bounding_box positions (x_min, y_min, x_max, y_max)
    ∧ let '(alto, ancho, c) := shape copie_img in
      let lado := Z.max (x_max - x_min) (y_max - y_min) in
      let x1 := Z.max 0 ((x_min + x_max) ÷ 2 - lado ÷ 2 - 50) in
      let y1 := Z.max 0 ((y_min + y_max) ÷ 2 - lado ÷ 2 - 50) in
      let x2 := x1 + Z.min (ancho - x1) (lado + 100) in
      let y2 := y1 + Z.min (alto - y1) (lado + 100) in
      x1 < ancho → y1 < alto →
      (0 <= x1 < x2 ∧ x2 <= ancho ∧ x2 - x1 <= lado + 100)
      ∧ (0 <= y1 < y2 ∧ y2 <= alto ∧ y2 - y1 <= lado + 100)
      ∧ shape (Crop copie_img y1 y2 x1 x2) = (y2 - y1, x2 - x1, c)
      ∧ Get_image_resized self positions copie_img
        = Ok (Resize (Crop copie_img y1 y2 x1 x2) (imgSize self, imgSize self))
      ∧ ∀ out, Get_image_resized self positions copie_img = Ok out →
               shape out = (imgSize self, imgSize self, c).
Proof.
  intros Hne Hsize.
  destruct (bounding_box_spec positions Hne) as ([[[x_min y_min] x_max] y_max] & E & Hb).
  exists x_min, y_min, x_max, y_max. split; [exact E|]. split; [exact Hb|].
  pose proof (Get_image_resized_eq self positions copie_img _ E) as Eg.
  unfold crop_region in Eg.
  destruct (shape copie_img) as [[alto ancho] c] eqn:Es.
  cbv beta iota. intros lado x1 y1 x2 y2 Hx Hy. cbn [fst snd] in Eg.
  fold lado x1 y1 in Eg. fold x2 y2 in Eg. rewrite Eg. clear Eg.
  destruct (bounding_box_ordered _ _ _ _ _ Hb) as [Hox Hoy].
  assert (0 <= lado) by (subst lado; lia).
  assert (0 <= x1 < x2 ∧ x2 <= ancho ∧ x2 - x1 <= lado + 100) as Hxs by (subst x1 x2 y1 y2; lia).
  assert (0 <= y1 < y2 ∧ y2 <= alto ∧ y2 - y1 <= lado + 100) as Hys by (subst x1 x2 y1 y2; lia).
  assert (shape (Crop copie_img y1 y2 x1 x2) = (y2 - y1, x2 - x1, c)) as Hshape.
  { cbn [shape]. rewrite Es. rewrite !slice_len_inside by lia. reflexivity. }
  assert (cv2_resize (Crop copie_img y1 y2 x1 x2) (imgSize self, imgSize self)
          = Ok (Resize (Crop copie_img y1 y2 x1 x2) (imgSize self, imgSize self))) as Hres.
  { unfold cv2_resize, is_empty. rewrite Hshape. cbn [fst snd].
    destruct (Z.leb_spec (y2 - y1) 0); [lia|].
    destruct (Z.leb_spec (x2 - x1) 0); [lia|].
    destruct (Z.leb_spec (imgSize self) 0); [lia|]. reflexivity. }
  do 3 (split; [assumption|]). split; [exact Hres|].
  intros out Hout. rewrite Hres in Hout. injection Hout as <-.
  cbn [shape]. now rewrite Es.
Qed.
End Crop.

Section CropExamples.

Lemma Get_image_resized_size_witness :
  Get_image_resized sample_utils [(100, 100, 0); (200, 250, 0)]%Q vga
  = Ok (Resize (Crop vga 50 300 25 275) (300, 300))
  ∧ shape (Resize (Crop vga 50 300 25 275) (300, 300)) = (300, 300, 3).
Proof.
  destruct (Get_image_resized_size sample_utils [(100, 100, 0); (200, 250, 0)]%Q vga)
    as (x_min & y_min & x_max & y_max & E & _ & H); [discriminate | reflexivity |].
  vm_compute in E. injection E as <- <- <- <-.
  destruct H as (_ & _ & _ & Hout & Hshape); [reflexivity | reflexivity |].
  split; [exact Hout | exact (Hshape _ Hout)].
Defined.

(** C4, as stated, fails for a position right of a 640 x 480 frame: the
    region is empty, the resize raises and no image is returned. *)
Lemma Get_image_resized_empty_crop_counterexample :
  Get_image_resized sample_utils [(1000, 100, 0)]%Q vga = Raise Cv2Error
  ∧ shape (Crop vga 50 150 950 640) = (100, 0, 3).
Proof. split; vm_compute; reflexivity. Qed.

End CropExamples.

(** ** Saving with collision avoidance *)

Section Save.

Lemma string_length_app (s t : string) :
  String.length (s +:+ t) = (String.length s + String.length t)%nat.
Proof.
  induction s as [|c s IH]; [reflexivity|].
  change (S (String.length (s +:+ t)) = S (String.length s + String.length t)).
  now rewrite IH.
Qed.

Lemma string_app_inj_r (s s' t : string) : s +:+ t = s' +:+ t → s = s'.
Proof.
  revert s'. induction s as [|c s IH]; intros [|c' s'] E.
  - reflexivity.
  - apply (f_equal String.length) in E.
    rewrite !string_length_app in E. cbn in E. lia.
  - apply (f_equal String.length) in E.
    rewrite !string_length_app in E. cbn in E. lia.
  - change (String c (s +:+ t) = String c' (s' +:+ t)) in E.
    injection E as -> E. f_equal. now apply IH.
Qed.

Lemma new_image_name_inj (sequence : nat) (hand_type : string) (count : Z) :
  Inj (=) (=) (new_image_name sequence hand_type count).
Proof.
  intros i j E. unfold new_image_name in E.
  do 7 apply String.app_inj in E.
  apply string_app_inj_r in E. now apply (inj pretty) in E.
Qed.

Lemma new_image_name_relative (sequence : nat) (hand_type : string) (count : Z)
    (index : nat) :
  String.prefix "/" (new_image_name sequence hand_type count index) = false.
Proof. reflexivity. Qed.

(** The candidate paths of one probe are pairwise distinct. *)
Lemma candidate_inj (a b : string) (sequence : nat) (hand_type : string) (count : Z) :
  Inj (=) (=) (λ index : nat,
                 os_path_join a b (new_image_name sequence hand_type count index)).
Proof.
  intros i j. unfold os_path_join. generalize (path_join2 a b). intros p.
  unfold path_join2. rewrite !new_image_name_relative.
  destruct (String.eqb p "" || ends_with_sep p); intros E.
  - apply String.app_inj in E. now apply new_image_name_inj in E.
  - do 2 apply String.app_inj in E. now apply new_image_name_inj in E.
Qed.

End Save.

Section Probe.

Context (fs : gmap string image) (candidate : nat → string).

Lemma os_path_exists_true (path : string) :
  os_path_exists fs path = true ↔ path ∈ dom fs.
Proof.
  unfold os_path_exists. rewrite bool_decide_eq_true. symmetry. apply elem_of_dom.
Qed.

Lemma os_path_exists_false (path : string) :
  os_path_exists fs path = false ↔ fs !! path = None.
Proof.
  unfold os_path_exists. rewrite bool_decide_eq_false. symmetry. apply eq_None_not_Some.
Qed.

(** The probe returns the first free candidate it meets. *)
Lemma probe_Some (fuel index : nat) (path : string) :
  probe fuel fs candidate index = Some path →
  ∃ n, (index ≤ n < index + fuel)%nat
       ∧ path = candidate n
       ∧ fs !! candidate n = None
       ∧ ∀ m, (index ≤ m < n)%nat → candidate m ∈ dom fs.
Proof.
  revert index. induction fuel as [|fuel IH]; intros index; cbn [probe]; [discriminate|].
  destruct (os_path_exists fs (candidate index)) eqn:E; cbn [negb].
  - intros (n & Hn & -> & Hfree & Hbusy)%IH.
    exists n. split; [lia|]. split; [reflexivity|]. split; [assumption|].
    intros m Hm. destruct (decide (m = index)) as [->|].
    + now apply os_path_exists_true.
    + apply Hbusy. lia.
  - intros [= <-]. exists index.
    split; [lia|]. split; [reflexivity|]. split; [now apply os_path_exists_false|].
    intros m Hm. lia.
Qed.

(** Out of fuel: every candidate tried exists. *)
Lemma probe_None (fuel index : nat) :
  probe fuel fs candidate index = None →
  ∀ m, (index ≤ m < index + fuel)%nat → candidate m ∈ dom fs.
Proof.
  revert index. induction fuel as [|fuel IH]; intros index; cbn [probe].
  - intros _ m Hm. lia.
  - destruct (os_path_exists fs (candidate index)) eqn:E; cbn [negb]; [|discriminate].
    intros Hrest m Hm. destruct (decide (m = index)) as [->|].
    + now apply os_path_exists_true.
    + apply (IH _ Hrest). lia.
Qed.

(** More fuel does not change an answer. *)
Lemma probe_more_fuel (fuel fuel' index : nat) (path : string) :
  probe fuel fs candidate index = Some path → (fuel ≤ fuel')%nat →
  probe fuel' fs candidate index = Some path.
Proof.
  revert fuel' index. induction fuel as [|fuel IH]; intros fuel' index; cbn [probe];
    [discriminate|].
  intros H Hle. destruct fuel' as [|fuel']; [lia|]. cbn [probe].
  destruct (negb (os_path_exists fs (candidate index))); [assumption|].
  apply IH; [assumption | lia].
Qed.

Hypothesis candidate_distinct : Inj (=) (=) candidate.

(** Distinct candidates cannot all be among the files once there are more
    candidates than files. *)
Lemma candidates_exhaust (index fuel : nat) :
  (∀ m, (index ≤ m < index + fuel)%nat → candidate m ∈ dom fs) →
  (fuel ≤ size fs)%nat.
Proof.
  intros Hall.
  assert (NoDup (candidate <$> seq index fuel)) as Hnd
    by (apply (NoDup_fmap_2 candidate), NoDup_seq).
  assert (length (candidate <$> seq index fuel) = fuel) as Hlen
    by now rewrite length_fmap, length_seq.
  rewrite <- (size_dom (D := gset string) fs), <- Hlen.
  rewrite <- (size_list_to_set (C := gset string) _ Hnd).
  apply subseteq_size. intros path.
  rewrite elem_of_list_to_set, list_elem_of_fmap.
  intros (m & -> & Hm). apply Hall. apply elem_of_seq in Hm. lia.
Qed.

Lemma probe_enough_fuel (fuel : nat) :
  (size fs < fuel)%nat →
  ∃ n, (1 ≤ n ≤ S (size fs))%nat
       ∧ fs !! candidate n = None
       ∧ (∀ m, (1 ≤ m < n)%nat → candidate m ∈ dom fs)
       ∧ probe fuel fs candidate 1 = Some (candidate n).
Proof.
  intros Hfuel.
  destruct (probe (S (size fs)) fs candidate 1) as [path|] eqn:E.
  - destruct (probe_Some _ _ _ E) as (n & Hn & -> & Hfree & Hbusy).
    exists n. split; [lia|]. split; [assumption|]. split; [assumption|].
    apply (probe_more_fuel _ _ _ _ E). lia.
  - pose proof (candidates_exhaust 1 (S (size fs)) (probe_None _ _ E)). lia.
Qed.

End Probe.

Section SaveMain.

Lemma probe_first_free (fs : gmap string image) (candidate : nat → string)
    (n fuel index : nat) :
  (∀ m, (index ≤ m < n)%nat → candidate m ∈ dom fs) →
  fs !! candidate n = None →
  (index ≤ n)%nat → (n - index < fuel)%nat →
  probe fuel fs candidate index = Some (candidate n).
Proof.
  intros Hbusy Hfree. revert index Hbusy.
  induction fuel as [|fuel IH]; intros index Hbusy Hle Hfuel; [lia|].
  cbn [probe]. destruct (decide (index = n)) as [->|Hne].
  - apply os_path_exists_false in Hfree. now rewrite Hfree.
  - assert (os_path_exists fs (candidate index) = true) as ->
      by (apply os_path_exists_true, Hbusy; lia).
    cbn [negb]. apply IH; [|lia|lia]. intros m Hm. apply Hbusy. lia.
Qed.

(** The first free candidate, for any family of distinct candidates. *)
Lemma probe_least_free (fs : gmap string image) (candidate : nat → string) :
  Inj (=) (=) candidate →
  ∃ n, (1 ≤ n ≤ S (size fs))%nat
       ∧ (candidate n ∉ dom fs)
       ∧ (∀ m, (1 ≤ m < n)%nat → candidate m ∈ dom fs)
       ∧ ∀ fuel, (n ≤ fuel)%nat → probe fuel fs candidate 1 = Some (candidate n).
Proof.
  intros Hinj.
  destruct (probe_enough_fuel fs candidate Hinj (S (size fs)) (Nat.lt_succ_diag_r _))
    as (n & Hn & Hfree & Hbusy & _).
  exists n. split; [assumption|]. split; [now apply not_elem_of_dom|].
  split; [assumption|].
  intros fuel Hfuel. apply probe_first_free; try assumption; lia.
Qed.

(** C10.  Whatever files exist, some suffixed candidate with index [n >= 1]
    is not among them; the probe loop started at index 1 stops there, at the
    first free candidate, after [n] iterations (any larger bound gives the
    same path). *)
Theorem probe_terminates (self : Utils) (action hand_type : string)
    (sequence : nat) (count : Z) (fs : gmap string image) :
  let candidate := λ index : nat,
    os_path_join (DATA_PATH self) action
      (new_image_name sequence hand_type count index) in
  ∃ n, (1 ≤ n ≤ S (size fs))%nat
       ∧ (candidate n ∉ dom fs)
       ∧ (∀ m, (1 ≤ m < n)%nat → candidate m ∈ dom fs)
       ∧ ∀ fuel, (n ≤ fuel)%nat → probe fuel fs candidate 1 = Some (candidate n).
Proof.
  intros candidate. apply probe_least_free.
  apply candidate_inj.
Qed.






End SaveMain.

(** * Further properties of the code *)

(** ** YOLO conversion: errors and range *)

Section YoloMore.
Local Open Scope Q_scope.


Lemma round_half_even_ge (q : Q) (n : Z) :
  inject_Z n <= q → (n <= round_half_even q)%Z.
Proof.
  intros Hq. unfold round_half_even.
  assert (n <= Qfloor q)%Z as Hf.
  { rewrite <- (Qfloor_Z n). now apply Qfloor_resp_le. }
  destruct (q - inject_Z (Qfloor q) ?= 1 # 2); [destruct (Z.even _)| |]; lia.
Qed.

(** The output is not clamped: for a box to the right of the image the first
    field printed is at least 1.000000. *)
Theorem convert_to_yolo_format_not_clamped (W H x1 y1 x2 y2 : Q) :
  0 < W → 0 < H → W <= x1 → W <= x2 →
  1 <= (x1 + x2) / 2 / W
  ∧ ∃ (n : Z) (rest : string),
      (1000000 <= n)%Z
      ∧ convert_to_yolo_format W H [x1; y1; x2; y2]
        = Ok (show_micro n +:+ rest)%string.
Proof.
  intros HW HH H1 H2.
  assert (1 <= (x1 + x2) / 2 / W) as Hc.
  { assert ((x1 + x2) / 2 / W == (x1 + x2) * (1 # 2) / W) as -> by (field; lra).
    apply Qle_shift_div_l; [assumption|]. lra. }
  split; [exact Hc|].
  exists (round_half_even (Qabs ((x1 + x2) / 2 / W) * 1000000)). eexists.
  split.
  - apply round_half_even_ge. rewrite Qabs_pos by lra.
    change (inject_Z 1000000) with 1000000. lra.
  - rewrite convert_to_yolo_format_eq by lra.
    unfold format_6f at 1.
    destruct ((x1 + x2) / 2 / W ?= 0) eqn:E; try reflexivity.
    apply Qlt_alt in E. lra.
Qed.

Lemma convert_to_yolo_format_not_clamped_witness :
  1 <= (700 + 900) / 2 / 640
  ∧ ∃ (n : Z) (rest : string),
      (1000000 <= n)%Z
      ∧ convert_to_yolo_format 640 480 [700; 100; 900; 200]
        = Ok (show_micro n +:+ rest)%string.
Proof.
  apply (convert_to_yolo_format_not_clamped 640 480 700 100 900 200);
    [reflexivity | reflexivity | discriminate | discriminate].
Defined.

End YoloMore.

(** ** The annotation writer: errors, file discipline, order of the hands *)

Section AnnotationMore.
Local Open Scope Q_scope.

Lemma string_app_nil_r (s : string) : s +:+ "" = s.
Proof.
  induction s as [|c s IH]; [reflexivity|].
  change (String c (s +:+ "") = String c s). now rewrite IH.
Qed.

Lemma scan_hand_empty (img : image) (st : locals) :
  scan_hand img st [] = Raise ValueError.
Proof. reflexivity. Qed.

Lemma scan_hand_Ok (img : image) (st : locals) (hand : hand_landmarks) :
  hand ≠ [] → ∃ st', scan_hand img st hand = Ok st'.
Proof.
  intros Hne. unfold scan_hand. rewrite hand_keypoints_eq.
  destruct (stride2_interleave (λ lm, (pixel_xy img lm).1)
              (λ lm, (pixel_xy img lm).2) hand) as [-> ->].
  destruct hand as [|lm hand]; [congruence|].
  cbn [map py_min py_max mbind result_bind]. eauto.
Qed.

Lemma foldM_scan_hand_empty (img : image) (hands : list hand_landmarks) :
  In [] hands → ∀ st, foldM (scan_hand img) st hands = Raise ValueError.
Proof.
  induction hands as [|hand hands IH]; intros Hin st; [contradiction|].
  cbn [foldM]. destruct hand as [|lm hand]; [reflexivity|].
  destruct (scan_hand_Ok img st (lm :: hand)) as (st' & ->); [discriminate|].
  cbn [mbind result_bind]. apply IH. destruct Hin as [E|Hin]; [discriminate E|assumption].
Qed.

(** The shape of every run on hands that all carry a landmark. *)
Lemma anotation_data_hands (results : detection) (img : image)
    (annotation_file : string) (class_index : Z) (fs : gmap string string)
    (hands : list hand_landmarks) :
  multi_hand_landmarks results = Some hands →
  hands ≠ [] →
  Forall (λ hand, hand ≠ []) hands →
  ∃ x_min y_min x_max y_max : Q,
    least id x_min (map fst (pixel_points img hands))
    ∧ least id y_min (map snd (pixel_points img hands))
    ∧ greatest id x_max (map fst (pixel_points img hands))
    ∧ greatest id y_max (map snd (pixel_points img hands))
    ∧ anotation_data results img annotation_file class_index fs
      = match convert_to_yolo_format (inject_Z (shape img).1.2)
                (inject_Z (shape img).1.1)
                [x_min - 20; y_min - 20; x_max + 20; y_max + 20] with
        | Raise e => (Raise e, open_append fs annotation_file)
        | Ok yolo =>
            (Ok (),
             write_append (open_append fs annotation_file) annotation_file
               ((pretty class_index +:+ " " +:+ yolo) +:+ nl))
        end.
Proof.
  intros Hres Hne Hall.
  destruct (foldM_scan_hand_bounds img hands Hall locals_init [])
    as (st & Efold & (Hx & Hy & HX & HY) & Hdims); [repeat split|].
  specialize (Hdims Hne). cbn [app] in *.
  assert (pixel_points img hands ≠ []) as Hpts.
  { destruct hands as [|[|lm hand] hands]; [congruence| |discriminate].
    now apply Forall_cons_1 in Hall as [? _]. }
  destruct st as [bx by_ bX bY d]. cbn [b_x_min b_y_min b_x_max b_y_max b_dims] in *.
  destruct bx as [|x_min|]; cbn in Hx; [contradiction| |now destruct (pixel_points img hands)].
  destruct by_ as [|y_min|]; cbn in Hy; [contradiction| |now destruct (pixel_points img hands)].
  destruct bX as [|x_max|]; cbn in HX; [now destruct (pixel_points img hands)| |contradiction].
  destruct bY as [|y_max|]; cbn in HY; [now destruct (pixel_points img hands)| |contradiction].
  exists x_min, y_min, x_max, y_max. do 4 (split; [assumption|]).
  unfold anotation_data. rewrite Hres, Efold.
  cbn [b_x_min b_y_min b_x_max b_y_max b_dims]. subst d.
  cbn [xsub xadd finite_part]. reflexivity.
Qed.

(** In every case, error or not, the call touches no other file and only
    appends to the annotation file; when it raises it appends nothing. *)
Theorem anotation_data_append_only (results : detection) (img : image)
    (annotation_file : string) (class_index : Z) (fs : gmap string string) :
  ∃ suffix : string,
    (anotation_data results img annotation_file class_index fs).2
    = <[annotation_file := (default "" (fs !! annotation_file) +:+ suffix)%string]> fs
    ∧ ((anotation_data results img annotation_file class_index fs).1 = Ok ()
       ∨ suffix = ""%string).
Proof.
  assert (∀ e, ∃ suffix : string,
            (Raise (A := unit) e, open_append fs annotation_file).2
            = <[annotation_file := (default "" (fs !! annotation_file) +:+ suffix)%string]> fs
            ∧ ((Raise (A := unit) e, open_append fs annotation_file).1 = Ok ()
               ∨ suffix = ""%string)) as Hfail.
  { intros e. exists ""%string. cbn [fst snd].
    rewrite string_app_nil_r, open_append_lookup. auto. }
  unfold anotation_data.
  destruct (multi_hand_landmarks results) as [hands|]; [|apply Hfail].
  destruct (foldM (scan_hand img) locals_init hands) as [st|e]; [|apply Hfail].
  destruct (b_dims st) as [[alto ancho]|]; [|apply Hfail].
  destruct (convert_to_yolo_format _ _ _) as [yolo|e]; [|apply Hfail].
  eexists. cbn [fst snd]. rewrite write_append_open_append. auto.
Qed.

Lemma anotation_data_empty_hand_eq (results : detection) (img : image)
    (annotation_file : string) (class_index : Z) (fs : gmap string string)
    (hands : list hand_landmarks) :
  multi_hand_landmarks results = Some hands →
  In [] hands →
  anotation_data results img annotation_file class_index fs
  = (Raise ValueError, open_append fs annotation_file).
Proof.
  intros Hres Hin. unfold anotation_data.
  now rewrite Hres, (foldM_scan_hand_empty img hands Hin).
Qed.

(** A hand without landmarks makes [min()] raise [ValueError], whatever the
    other hands are; the file is opened but nothing is written. *)
Theorem anotation_data_empty_hand (results : detection) (img : image)
    (annotation_file : string) (class_index : Z) (fs : gmap string string)
    (hands : list hand_landmarks) :
  multi_hand_landmarks results = Some hands →
  In [] hands →
  anotation_data results img annotation_file class_index fs
  = (Raise ValueError, <[annotation_file := default "" (fs !! annotation_file)]> fs).
Proof.
  intros Hres Hin.
  rewrite (anotation_data_empty_hand_eq _ _ _ _ _ hands Hres Hin).
  now rewrite open_append_lookup.
Qed.

Lemma anotation_data_empty_hand_witness :
  anotation_data
    {| multi_hand_landmarks := Some [[lm_at (1 # 2) (1 # 2)]; []];
       multi_handedness := Some [["Left"%string]; ["Right"%string]] |}
    vga "labels.txt" 3 {["labels.txt"%string := "old"%string]}
  = (Raise ValueError, {["labels.txt"%string := "old"%string]}).
Proof.
  rewrite (anotation_data_empty_hand _ vga "labels.txt" 3 _
             [[lm_at (1 # 2) (1 # 2)]; []]).
  - vm_compute. reflexivity.
  - reflexivity.
  - right. left. reflexivity.
Defined.

Lemma convert_to_yolo_format_zero (W H a b c d : Q) :
  W == 0 ∨ H == 0 →
  convert_to_yolo_format W H [a; b; c; d] = Raise ZeroDivisionError.
Proof.
  intros Hz. unfold convert_to_yolo_format.
  cbn [getitem lookup list_lookup mbind result_bind].
  rewrite !(truediv_nonzero _ 2) by (intros E; discriminate E).
  cbn [mbind result_bind].
  destruct (Qeq_dec W 0) as [HW|HW].
  - now rewrite !(truediv_zero _ W HW).
  - destruct Hz as [Hz|Hz]; [contradiction|].
    rewrite !(truediv_nonzero _ W HW). cbn [mbind result_bind].
    now rewrite !(truediv_zero _ H Hz).
Qed.

(** An image without rows or without columns makes the conversion divide by
    zero: [ZeroDivisionError], and nothing is written. *)
Theorem anotation_data_zero_size_image (results : detection) (img : image)
    (annotation_file : string) (class_index : Z) (fs : gmap string string)
    (hands : list hand_landmarks) :
  multi_hand_landmarks results = Some hands →
  hands ≠ [] →
  Forall (λ hand, hand ≠ []) hands →
  (shape img).1.1 = 0%Z ∨ (shape img).1.2 = 0%Z →
  anotation_data results img annotation_file class_index fs
  = (Raise ZeroDivisionError,
     <[annotation_file := default "" (fs !! annotation_file)]> fs).
Proof.
  intros Hres Hne Hall Hz.
  destruct (anotation_data_hands results img annotation_file class_index fs hands
              Hres Hne Hall) as (x_min & y_min & x_max & y_max & _ & _ & _ & _ & ->).
  rewrite convert_to_yolo_format_zero, open_append_lookup; [reflexivity|].
  destruct Hz as [-> | ->]; [right|left]; reflexivity.
Qed.

Lemma anotation_data_zero_size_image_witness :
  anotation_data two_hands (Frame 480 0 3 0) "labels.txt" 3 ∅
  = (Raise ZeroDivisionError, {["labels.txt"%string := ""%string]}).
Proof.
  rewrite (anotation_data_zero_size_image two_hands (Frame 480 0 3 0) "labels.txt" 3 ∅
             [[lm_at (1 # 10) (1 # 10); lm_at (2 # 10) (3 # 10)];
              [lm_at (7 # 10) (6 # 10); lm_at (9 # 10) (8 # 10)]]).
  - vm_compute. reflexivity.
  - reflexivity.
  - discriminate.
  - repeat constructor; discriminate.
  - right. reflexivity.
Defined.

End AnnotationMore.

Section AnnotationOrder.
Local Open Scope Q_scope.

Lemma least_unique (l l' : list Q) (m m' : Q) :
  (∀ x, In x l ↔ In x l') → least id m l → least id m' l' → m == m'.
Proof.
  intros Hsame [Hin Hall] [Hin' Hall'].
  rewrite Forall_forall in Hall, Hall'. unfold id in *.
  apply Qle_antisym.
  - apply Hall, list_elem_of_In, Hsame, Hin'.
  - apply Hall', list_elem_of_In, Hsame, Hin.
Qed.

Lemma greatest_unique (l l' : list Q) (m m' : Q) :
  (∀ x, In x l ↔ In x l') → greatest id m l → greatest id m' l' → m == m'.
Proof.
  intros Hsame [Hin Hall] [Hin' Hall'].
  rewrite Forall_forall in Hall, Hall'. unfold id in *.
  apply Qle_antisym.
  - apply Hall', list_elem_of_In, Hsame, Hin.
  - apply Hall, list_elem_of_In, Hsame, Hin'.
Qed.

Lemma pixel_points_In (img : image) (hands : list hand_landmarks) (pt : Q * Q) :
  In pt (pixel_points img hands)
  ↔ ∃ hand lm, In hand hands ∧ In lm hand ∧ pt = pixel_xy img lm.
Proof.
  unfold pixel_points. rewrite in_concat. split.
  - intros (pts & Hpts & Hpt). apply in_map_iff in Hpts as (hand & <- & Hhand).
    apply in_map_iff in Hpt as (lm & <- & Hlm). eauto.
  - intros (hand & lm & Hhand & Hlm & ->).
    exists (map (pixel_xy img) hand). split; apply in_map; assumption.
Qed.

Lemma pixel_points_same (img : image) (hands hands' : list hand_landmarks)
    {B} (f : Q * Q → B) :
  (∀ hand, In hand hands ↔ In hand hands') →
  ∀ x, In x (map f (pixel_points img hands)) ↔ In x (map f (pixel_points img hands')).
Proof.
  intros Hsame x. rewrite !in_map_iff.
  split; intros (pt & <- & Hpt); exists pt; (split; [reflexivity|]);
    apply pixel_points_In in Hpt as (hand & lm & Hhand & Hlm & ->);
    apply pixel_points_In; exists hand, lm; (split; [apply Hsame, Hhand | auto]).
Qed.

Lemma convert_to_yolo_format_Qeq (W H a b c d a' b' c' d' : Q) :
  a == a' → b == b' → c == c' → d == d' →
  convert_to_yolo_format W H [a; b; c; d]
  = convert_to_yolo_format W H [a'; b'; c'; d'].
Proof.
  intros Ea Eb Ec Ed.
  destruct (Qeq_dec W 0) as [HW|HW];
    [now rewrite !convert_to_yolo_format_zero by (now left)|].
  destruct (Qeq_dec H 0) as [HH|HH];
    [now rewrite !convert_to_yolo_format_zero by (now right)|].
  rewrite !convert_to_yolo_format_eq by assumption.
  now rewrite Ea, Eb, Ec, Ed.
Qed.

(** The line written does not depend on the order in which the detector
    lists the hands (nor does the error, when there is one). *)
Theorem anotation_data_hand_order (results results' : detection) (img : image)
    (annotation_file : string) (class_index : Z) (fs : gmap string string)
    (hands hands' : list hand_landmarks) :
  multi_hand_landmarks results = Some hands →
  multi_hand_landmarks results' = Some hands' →
  hands ≡ₚ hands' →
  anotation_data results img annotation_file class_index fs
  = anotation_data results' img annotation_file class_index fs.
Proof.
  intros Hres Hres' Hperm.
  assert (∀ hand, In hand hands ↔ In hand hands') as Hsame.
  { intros hand. split; apply Permutation_in; [assumption | now symmetry]. }
  assert (∀ hs : list hand_landmarks,
            Forall (λ hand, hand ≠ []) hs ∨ In [] hs) as Hdec.
  { induction hs as [|hand hs IH]; [left; constructor|].
    destruct hand as [|lm hand]; [right; now left|].
    destruct IH as [IH|IH]; [left | right; now right].
    constructor; [discriminate | assumption]. }
  destruct (Hdec hands) as [Hfull|Hempty].
  - assert (Forall (λ hand, hand ≠ []) hands') as Hfull'.
    { rewrite Forall_forall in Hfull |- *. intros hand Hin.
      apply Hfull. apply list_elem_of_In, Hsame, list_elem_of_In, Hin. }
    destruct hands as [|h hs].
    { apply Permutation_nil in Hperm. subst hands'.
      unfold anotation_data. now rewrite Hres, Hres'. }
    assert (hands' ≠ []) as Hne'.
    { intros ->. symmetry in Hperm. now apply Permutation_nil in Hperm. }
    destruct (anotation_data_hands results img annotation_file class_index fs
                (h :: hs) Hres ltac:(discriminate) Hfull)
      as (a & b & c & d & Ha & Hb & Hc & Hd & ->).
    destruct (anotation_data_hands results' img annotation_file class_index fs
                hands' Hres' Hne' Hfull')
      as (a' & b' & c' & d' & Ha' & Hb' & Hc' & Hd' & ->).
    rewrite (convert_to_yolo_format_Qeq _ _ (a - 20) (b - 20) (c + 20) (d + 20)
               (a' - 20) (b' - 20) (c' + 20) (d' + 20)); [reflexivity|..].
    + rewrite (least_unique _ _ a a' (pixel_points_same img _ _ fst Hsame) Ha Ha').
      reflexivity.
    + rewrite (least_unique _ _ b b' (pixel_points_same img _ _ snd Hsame) Hb Hb').
      reflexivity.
    + rewrite (greatest_unique _ _ c c' (pixel_points_same img _ _ fst Hsame) Hc Hc').
      reflexivity.
    + rewrite (greatest_unique _ _ d d' (pixel_points_same img _ _ snd Hsame) Hd Hd').
      reflexivity.
  - rewrite (anotation_data_empty_hand_eq results img annotation_file class_index fs
               hands Hres Hempty).
    rewrite (anotation_data_empty_hand_eq results' img annotation_file class_index fs
               hands' Hres' (proj1 (Hsame _) Hempty)).
    reflexivity.
Qed.

Lemma anotation_data_hand_order_witness :
  anotation_data
    {| multi_hand_landmarks :=
         Some [[lm_at (7 # 10) (6 # 10); lm_at (9 # 10) (8 # 10)];
               [lm_at (1 # 10) (1 # 10); lm_at (2 # 10) (3 # 10)]];
       multi_handedness := Some [["Right"%string]; ["Left"%string]] |}
    vga "labels.txt" 3 ∅
  = (Ok (), {["labels.txt"%string :=
               ("3 0.500000 0.450000 0.862500 0.783333" +:+ nl)%string]}).
Proof.
  rewrite (anotation_data_hand_order _ two_hands vga "labels.txt" 3 ∅
             [[lm_at (7 # 10) (6 # 10); lm_at (9 # 10) (8 # 10)];
              [lm_at (1 # 10) (1 # 10); lm_at (2 # 10) (3 # 10)]]
             [[lm_at (1 # 10) (1 # 10); lm_at (2 # 10) (3 # 10)];
              [lm_at (7 # 10) (6 # 10); lm_at (9 # 10) (8 # 10)]]).
  - vm_compute. reflexivity.
  - reflexivity.
  - reflexivity.
  - apply perm_swap.
Defined.

End AnnotationOrder.

(** ** The accumulator of [get_position] and [Detect_hand_type] *)

Section AccumulatorMore.
Local Open Scope Q_scope.

Lemma all_positions_length (img : image) (hands : list hand_landmarks) :
  length (all_positions img hands) = list_sum (map (@length landmark) hands).
Proof.
  unfold all_positions. induction hands as [|hand hands IH]; [reflexivity|].
  cbn [map concat list_sum]. now rewrite length_app, length_map, IH.
Qed.

(** [get_position] keeps what the accumulator held and appends one position
    per landmark, hand after hand, scaled by the image width, height and
    width again; on [None] it raises [TypeError] and appends nothing. *)
Theorem get_position_appends (positions : list position) (results : detection)
    (img : image) :
  match multi_hand_landmarks results with
  | None => get_position positions results img = (Raise TypeError, positions)
  | Some hands =>
      get_position positions results img
      = (Ok (), (positions ++ concat (map (map (pixel_xyz img)) hands))%list)
      ∧ length (get_position positions results img).2
        = (length positions + list_sum (map (@length landmark) hands))%nat
  end.
Proof.
  destruct (multi_hand_landmarks results) as [hands|] eqn:E.
  - rewrite (get_position_eq positions results img hands E). split; [reflexivity|].
    cbn [snd]. now rewrite length_app, all_positions_length.
  - unfold get_position. now rewrite E.
Qed.

(** [Detect_hand_type] never removes or reorders what the accumulator held;
    the list it returns is the accumulator itself; and whenever it raises,
    or returns [None], nothing has been appended. *)
Theorem Detect_hand_type_accumulator (hand_type : string) (results : detection)
    (positions : list position) (img : image) :
  ∃ suffix : list position,
    (Detect_hand_type hand_type results positions img).2
    = (positions ++ suffix)%list
    ∧ match (Detect_hand_type hand_type results positions img).1 with
      | Ok (Some returned) => returned = (positions ++ suffix)%list
      | Ok None => suffix = [] ∧ multi_handedness results = Some []
      | Raise _ => suffix = []
      end.
Proof.
  unfold Detect_hand_type.
  destruct (multi_handedness results) as [[|info infos]|];
    try (exists []; cbn; rewrite app_nil_r; auto; fail).
  destruct (getitem info 0) as [label|e];
    [|exists []; cbn; rewrite app_nil_r; auto].
  destruct (multi_hand_landmarks results) as [hands|] eqn:Eh.
  - rewrite !(get_position_eq _ results img hands Eh).
    destruct (String.eqb label hand_type), (String.eqb hand_type "all");
      rewrite ?(get_position_eq _ results img hands Eh); cbn [fst snd].
    + exists (all_positions img hands ++ all_positions img hands)%list.
      now rewrite app_assoc.
    + now exists (all_positions img hands).
    + now exists (all_positions img hands).
    + exists []. now rewrite app_nil_r.
  - unfold get_position. rewrite Eh.
    destruct (String.eqb label hand_type), (String.eqb hand_type "all");
      exists []; cbn; rewrite app_nil_r; auto.
Qed.

End AccumulatorMore.

Section AccumulatorFrames.
Local Open Scope Q_scope.

(** The accumulator is not cleared between calls: two frames whose first
    hand passes the filter leave the positions of the first frame followed
    by those of the second. *)
Theorem Detect_hand_type_successive_frames (hand_type : string)
    (results1 results2 : detection) (positions : list position) (img : image)
    (info1 info2 : hand_info) (infos1 infos2 : list hand_info)
    (hands1 hands2 : list hand_landmarks) :
  hand_type ≠ "all"%string →
  multi_handedness results1 = Some (info1 :: infos1) →
  multi_handedness results2 = Some (info2 :: infos2) →
  getitem info1 0 = Ok hand_type →
  getitem info2 0 = Ok hand_type →
  multi_hand_landmarks results1 = Some hands1 →
  multi_hand_landmarks results2 = Some hands2 →
  (Detect_hand_type hand_type results2
     (Detect_hand_type hand_type results1 positions img).2 img).2
  = (positions ++ all_positions img hands1 ++ all_positions img hands2)%list.
Proof.
  intros Hall Ei1 Ei2 El1 El2 Eh1 Eh2.
  rewrite (Detect_hand_type_eq hand_type results1 positions img info1 infos1 hands1
             hand_type Ei1 Eh1 El1).
  cbn [snd].
  rewrite (Detect_hand_type_eq hand_type results2 _ img info2 infos2 hands2
             hand_type Ei2 Eh2 El2).
  cbn [snd]. rewrite String.eqb_refl.
  destruct (String.eqb hand_type "all") eqn:E.
  - apply String.eqb_eq in E. contradiction.
  - now rewrite !app_nil_r, app_assoc.
Qed.

Lemma Detect_hand_type_successive_frames_witness :
  (Detect_hand_type "Left" two_hands
     (Detect_hand_type "Left" two_hands [] vga).2 vga).2
  = [(640 # 10, 480 # 10, 0); (1280 # 10, 1440 # 10, 0);
     (4480 # 10, 2880 # 10, 0); (5760 # 10, 3840 # 10, 0);
     (640 # 10, 480 # 10, 0); (1280 # 10, 1440 # 10, 0);
     (4480 # 10, 2880 # 10, 0); (5760 # 10, 3840 # 10, 0)].
Proof.
  etransitivity.
  - apply (Detect_hand_type_successive_frames "Left" two_hands two_hands [] vga
             ["Left"%string] ["Left"%string] [["Right"%string]] [["Right"%string]]
             [[lm_at (1 # 10) (1 # 10); lm_at (2 # 10) (3 # 10)];
              [lm_at (7 # 10) (6 # 10); lm_at (9 # 10) (8 # 10)]]
             [[lm_at (1 # 10) (1 # 10); lm_at (2 # 10) (3 # 10)];
              [lm_at (7 # 10) (6 # 10); lm_at (9 # 10) (8 # 10)]]);
      (discriminate || reflexivity).
  - vm_compute. reflexivity.
Defined.

End AccumulatorFrames.

(** ** The bounding box, the drawing guard and the crop *)

Section BoxMore.

(** The box encloses the truncated coordinates of every position. *)
Theorem bounding_box_encloses (positions : list position)
    (x_min y_min x_max y_max : Z) :
  bounding_box positions = Ok (x_min, y_min, x_max, y_max) →
  positions ≠ []
  ∧ Forall (λ p, x_min <= int_of (pos_x p) <= x_max
                 ∧ y_min <= int_of (pos_y p) <= y_max) positions.
Proof.
  intros E.
  assert (positions ≠ []) as Hne by (intros ->; discriminate E).
  split; [exact Hne|].
  destruct (bounding_box_spec positions Hne) as (b & E' & Hb).
  rewrite E in E'. injection E' as <-.
  destruct Hb as ((p & [_ Hp] & ->) & (p' & [_ Hp'] & ->)
                  & (q & [_ Hq] & ->) & (q' & [_ Hq'] & ->)).
  rewrite Forall_forall in Hp, Hp', Hq, Hq' |- *.
  intros r Hr. repeat split; apply int_of_mono; auto.
Qed.

Lemma bounding_box_encloses_witness :
  Forall (λ p, 100 <= int_of (pos_x p) <= 200 ∧ 24 <= int_of (pos_y p) <= 250)
    [(100, 24, 0); (3001 # 20, 100, 5); (200, 250, 0)]%Q.
Proof.
  apply (bounding_box_encloses [(100, 24, 0); (3001 # 20, 100, 5); (200, 250, 0)]%Q
           100 24 200 250).
  vm_compute. reflexivity.
Defined.

(** Whatever is drawn is at least 90 pixels wide and 55 high, so a frame
    narrower or lower than that is never drawn on. *)
Theorem Draw_Bound_Boxes_small_frame (self : Utils) (positions : list position)
    (frame : image) (cls : string) :
  positions ≠ [] →
  (shape frame).1.2 < 90 ∨ (shape frame).1.1 < 55 →
  Draw_Bound_Boxes self positions frame cls = Ok frame.
Proof.
  intros Hne Hsmall.
  destruct (bounding_box_spec positions Hne) as ([[[x_min y_min] x_max] y_max] & E & Hb).
  destruct (bounding_box_ordered _ _ _ _ _ Hb) as [Hox Hoy].
  unfold Draw_Bound_Boxes. rewrite E. cbn [mbind result_bind].
  replace (x_min + (x_max - x_min)) with x_max by lia.
  replace (y_min + (y_max - y_min)) with y_max by lia.
  rewrite !Z.geb_leb.
  destruct (Z.leb_spec 0 (y_min - offset self - 15));
    destruct (Z.leb_spec (y_max - offset self + 40) (shape frame).1.1);
    destruct (Z.leb_spec 0 (x_min - offset self - 40));
    destruct (Z.leb_spec (x_max - offset self + 50) (shape frame).1.2);
    cbn [andb]; try reflexivity; lia.
Qed.

Lemma Draw_Bound_Boxes_small_frame_witness :
  Draw_Bound_Boxes sample_utils [(60, 40, 0)]%Q (Frame 54 200 3 0) "A"
  = Ok (Frame 54 200 3 0).
Proof.
  apply Draw_Bound_Boxes_small_frame; [discriminate | right; reflexivity].
Defined.

End BoxMore.

Section CropMore.

Lemma slice_len_outside (n a b : Z) : 0 <= n → n <= a → b = n → slice_len n a b = 0.
Proof.
  intros Hn Ha ->. unfold slice_len, slice_bound.
  destruct (Z.ltb_spec n 0), (Z.ltb_spec a 0); lia.
Qed.

(** The resize of the region cut at a non-negative corner: it fails exactly
    when the corner is not inside the frame or the target size is not
    positive. *)
Lemma crop_resize_outcome (img : image) (alto ancho c x1 y1 lado size : Z) :
  shape img = (alto, ancho, c) →
  0 <= alto → 0 <= ancho → 0 <= x1 → 0 <= y1 → 0 <= lado →
  cv2_resize (Crop img y1 (y1 + Z.min (alto - y1) (lado + 100))
                     x1 (x1 + Z.min (ancho - x1) (lado + 100))) (size, size)
  = if (0 <? size) && (x1 <? ancho) && (y1 <? alto)
    then Ok (Resize (Crop img y1 (y1 + Z.min (alto - y1) (lado + 100))
                            x1 (x1 + Z.min (ancho - x1) (lado + 100))) (size, size))
    else Raise Cv2Error.
Proof.
  intros Es Halto Hancho Hx Hy Hlado.
  unfold cv2_resize, is_empty. cbn [shape fst snd]. rewrite Es.
  destruct (Z.ltb_spec 0 size) as [Hs|Hs];
    destruct (Z.ltb_spec x1 ancho) as [Hxa|Hxa];
    destruct (Z.ltb_spec y1 alto) as [Hya|Hya]; cbn [andb];
    rewrite ?(slice_len_inside alto) by lia;
    rewrite ?(slice_len_inside ancho) by lia;
    rewrite ?(slice_len_outside alto) by lia;
    rewrite ?(slice_len_outside ancho) by lia;
    repeat match goal with
           | |- context [?a <=? ?b] => destruct (Z.leb_spec a b); try lia
           end;
    cbn [orb]; reflexivity.
Qed.

Lemma bounding_box_Ok_spec (positions : list position) (b : Z * Z * Z * Z) :
  bounding_box positions = Ok b → positions ≠ [] ∧ is_bounding_box positions b.
Proof.
  intros E. assert (positions ≠ []) as Hne by (intros ->; discriminate E).
  split; [exact Hne|].
  destruct (bounding_box_spec positions Hne) as (b' & E' & Hb).
  rewrite E in E'. now injection E' as <-.
Qed.

(** The outcome of [Get_image_resized] on a frame: the crop of the region and
    its resize when the clamped corner is inside the frame and [imgSize] is
    positive, [cv2.error] otherwise. *)
Theorem Get_image_resized_outcome (self : Utils) (positions : list position)
    (copie_img : image) (x_min y_min x_max y_max : Z) :
  bounding_box positions = Ok (x_min, y_min, x_max, y_max) →
  0 <= (shape copie_img).1.1 → 0 <= (shape copie_img).1.2 →
  let lado := Z.max (x_max - x_min) (y_max - y_min) in
  let x1 := Z.max 0 ((x_min + x_max) ÷ 2 - lado ÷ 2 - 50) in
  let y1 := Z.max 0 ((y_min + y_max) ÷ 2 - lado ÷ 2 - 50) in
  let x2 := x1 + Z.min ((shape copie_img).1.2 - x1) (lado + 100) in
  let y2 := y1 + Z.min ((shape copie_img).1.1 - y1) (lado + 100) in
  Get_image_resized self positions copie_img
  = if (0 <? imgSize self) && (x1 <? (shape copie_img).1.2)
       && (y1 <? (shape copie_img).1.1)
    then Ok (Resize (Crop copie_img y1 y2 x1 x2) (imgSize self, imgSize self))
    else Raise Cv2Error.
Proof.
  intros E Halto Hancho lado x1 y1 x2 y2.
  destruct (bounding_box_Ok_spec _ _ E) as [_ Hb].
  destruct (bounding_box_ordered _ _ _ _ _ Hb) as [Hox Hoy].
  rewrite (Get_image_resized_eq self positions copie_img _ E).
  unfold crop_region. fold lado. fold x1 y1. fold x2 y2.
  destruct (shape copie_img) as [[alto ancho] c] eqn:Es. cbn [fst snd] in *.
  subst x2 y2. apply (crop_resize_outcome copie_img alto ancho c); try assumption;
    subst x1 y1 lado; lia.
Qed.

Lemma Get_image_resized_outcome_witness :
  Get_image_resized sample_utils [(630, 470, 0)]%Q vga
  = Ok (Resize (Crop vga 420 480 580 640) (300, 300))
  ∧ Get_image_resized sample_utils [(700, 470, 0)]%Q vga = Raise Cv2Error.
Proof.
  split.
  - rewrite (Get_image_resized_outcome sample_utils [(630, 470, 0)]%Q vga 630 470 630 470);
      [reflexivity | reflexivity | discriminate | discriminate].
  - rewrite (Get_image_resized_outcome sample_utils [(700, 470, 0)]%Q vga 700 470 700 470);
      [reflexivity | reflexivity | discriminate | discriminate].
Defined.

End CropMore.

Section CropInside.

Lemma int_of_bounds_nonneg (x : Q) (n : Z) :
  (0 <= x)%Q → (x < inject_Z n)%Q → 0 <= int_of x < n.
Proof.
  intros H0 Hn. rewrite (int_of_nonneg x H0). split.
  - change 0 with (Qfloor 0). now apply Qfloor_resp_le.
  - rewrite Zlt_Qlt. eapply Qle_lt_trans; [apply Qfloor_le | exact Hn].
Qed.

Lemma crop_corner_le (lo hi : Z) :
  lo <= hi →
  ∀ lado, hi - lo <= lado → (lo + hi) ÷ 2 - lado ÷ 2 - 50 <= lo - 49.
Proof.
  intros Hle lado Hlado.
  pose proof (Z.quot_rem' (lo + hi) 2) as Hs.
  pose proof (Z.quot_rem' lado 2) as Hl.
  pose proof (Z.rem_bound_abs (lo + hi) 2 ltac:(lia)) as Hsr.
  pose proof (Z.rem_bound_pos lado 2 ltac:(lia) ltac:(lia)) as Hlr.
  lia.
Qed.

Lemma crop_far_corner_ge (lo hi : Z) :
  lo <= hi →
  ∀ lado, hi - lo <= lado →
  hi + 49 <= (lo + hi) ÷ 2 - lado ÷ 2 - 50 + (lado + 100).
Proof.
  intros Hle lado Hlado.
  pose proof (Z.quot_rem' (lo + hi) 2) as Hs.
  pose proof (Z.quot_rem' lado 2) as Hl.
  pose proof (Z.rem_bound_abs (lo + hi) 2 ltac:(lia)) as Hsr.
  pose proof (Z.rem_bound_pos lado 2 ltac:(lia) ltac:(lia)) as Hlr.
  lia.
Qed.

(** Positions inside the frame always give a crop: the call returns an image
    of [imgSize] by [imgSize]. *)
Theorem Get_image_resized_inside (self : Utils) (positions : list position)
    (copie_img : image) :
  positions ≠ [] →
  0 < imgSize self →
  Forall (λ p, (0 <= pos_x p)%Q ∧ (pos_x p < inject_Z (shape copie_img).1.2)%Q
               ∧ (0 <= pos_y p)%Q ∧ (pos_y p < inject_Z (shape copie_img).1.1)%Q)
         positions →
  ∃ out, Get_image_resized self positions copie_img = Ok out
         ∧ shape out = (imgSize self, imgSize self, (shape copie_img).2).
Proof.
  intros Hne Hsize Hin.
  destruct (bounding_box_spec positions Hne) as ([[[x_min y_min] x_max] y_max] & E & Hb).
  destruct (bounding_box_ordered _ _ _ _ _ Hb) as [Hox Hoy].
  pose proof Hb as ((p & [Hp _] & Ex) & (p' & [Hp' _] & Ey)
                    & (q & [Hq _] & EX) & (q' & [Hq' _] & EY)).
  rewrite Forall_forall in Hin.
  pose proof (Hin p (proj2 (list_elem_of_In _ _) Hp)) as (Hp0 & Hp1 & _ & _).
  pose proof (Hin p' (proj2 (list_elem_of_In _ _) Hp')) as (_ & _ & Hp'0 & Hp'1).
  pose proof (Hin q (proj2 (list_elem_of_In _ _) Hq)) as (Hq0 & Hq1 & _ & _).
  pose proof (Hin q' (proj2 (list_elem_of_In _ _) Hq')) as (_ & _ & Hq'0 & Hq'1).
  pose proof (int_of_bounds_nonneg _ _ Hp0 Hp1) as Bx. rewrite <- Ex in Bx.
  pose proof (int_of_bounds_nonneg _ _ Hp'0 Hp'1) as By. rewrite <- Ey in By.
  pose proof (int_of_bounds_nonneg _ _ Hq0 Hq1) as BX. rewrite <- EX in BX.
  pose proof (int_of_bounds_nonneg _ _ Hq'0 Hq'1) as BY. rewrite <- EY in BY.
  pose proof (crop_corner_le x_min x_max Hox
                (Z.max (x_max - x_min) (y_max - y_min)) ltac:(lia)) as Cx.
  pose proof (crop_corner_le y_min y_max Hoy
                (Z.max (x_max - x_min) (y_max - y_min)) ltac:(lia)) as Cy.
  rewrite (Get_image_resized_eq self positions copie_img _ E). unfold crop_region.
  destruct (shape copie_img) as [[alto ancho] c] eqn:Es. cbn [fst snd] in *.
  rewrite (crop_resize_outcome copie_img alto ancho c) by (try assumption; lia).
  destruct (Z.ltb_spec 0 (imgSize self)); [|lia].
  destruct (Z.ltb_spec (Z.max 0 ((x_min + x_max) ÷ 2
              - Z.max (x_max - x_min) (y_max - y_min) ÷ 2 - 50)) ancho); [|lia].
  destruct (Z.ltb_spec (Z.max 0 ((y_min + y_max) ÷ 2
              - Z.max (x_max - x_min) (y_max - y_min) ÷ 2 - 50)) alto); [|lia].
  cbn [andb]. eexists. split; [reflexivity|]. cbn [shape]. now rewrite Es.
Qed.

Lemma Get_image_resized_inside_witness :
  ∃ out, Get_image_resized sample_utils [(0, 0, 0); (6399 # 10, 4799 # 10, 0)]%Q vga
         = Ok out
         ∧ shape out = (300, 300, 3).
Proof.
  apply (Get_image_resized_inside sample_utils
           [(0, 0, 0); (6399 # 10, 4799 # 10, 0)]%Q vga).
  - discriminate.
  - reflexivity.
  - repeat constructor; (discriminate || reflexivity).
Defined.

(** The region cut out keeps a margin of 49 pixels around the bounding box
    on every side, as far as the frame reaches. *)
Theorem Get_image_resized_margin (self : Utils) (positions : list position)
    (copie_img out : image) (x_min y_min x_max y_max : Z) :
  bounding_box positions = Ok (x_min, y_min, x_max, y_max) →
  Get_image_resized self positions copie_img = Ok out →
  ∃ x1 y1 x2 y2,
    out = Resize (Crop copie_img y1 y2 x1 x2) (imgSize self, imgSize self)
    ∧ 0 <= x1 <= Z.max 0 (x_min - 49)
    ∧ 0 <= y1 <= Z.max 0 (y_min - 49)
    ∧ Z.min (shape copie_img).1.2 (x_max + 49) <= x2
    ∧ Z.min (shape copie_img).1.1 (y_max + 49) <= y2.
Proof.
  intros E Hout.
  destruct (bounding_box_Ok_spec _ _ E) as [_ Hb].
  destruct (bounding_box_ordered _ _ _ _ _ Hb) as [Hox Hoy].
  pose proof (crop_corner_le x_min x_max Hox
                (Z.max (x_max - x_min) (y_max - y_min)) ltac:(lia)) as Cx.
  pose proof (crop_corner_le y_min y_max Hoy
                (Z.max (x_max - x_min) (y_max - y_min)) ltac:(lia)) as Cy.
  pose proof (crop_far_corner_ge x_min x_max Hox
                (Z.max (x_max - x_min) (y_max - y_min)) ltac:(lia)) as Dx.
  pose proof (crop_far_corner_ge y_min y_max Hoy
                (Z.max (x_max - x_min) (y_max - y_min)) ltac:(lia)) as Dy.
  rewrite (Get_image_resized_eq self positions copie_img _ E) in Hout.
  unfold crop_region in Hout.
  destruct (shape copie_img) as [[alto ancho] c] eqn:Es. cbn [fst snd] in *.
  unfold cv2_resize in Hout.
  destruct (is_empty _ || _ || _); [discriminate Hout|].
  injection Hout as <-.
  do 4 eexists. split; [reflexivity|]. lia.
Qed.

Lemma Get_image_resized_margin_witness :
  ∃ x1 y1 x2 y2,
    Resize (Crop vga 50 300 25 275) (300, 300)
    = Resize (Crop vga y1 y2 x1 x2) (imgSize sample_utils, imgSize sample_utils)
    ∧ 0 <= x1 <= Z.max 0 (100 - 49)
    ∧ 0 <= y1 <= Z.max 0 (100 - 49)
    ∧ Z.min (shape vga).1.2 (200 + 49) <= x2
    ∧ Z.min (shape vga).1.1 (250 + 49) <= y2.
Proof.
  apply (Get_image_resized_margin sample_utils [(100, 100, 0); (200, 250, 0)]%Q
           vga _ 100 100 200 250); vm_compute; reflexivity.
Defined.

End CropInside.

(** ** Saving: how many files, what they hold, and the quota *)

Section SaveMore.









(** With a save frequency of zero no file is written and the quota test
    divides by zero. *)
Theorem Save_resized_hand_zero_frequency (self : Utils) (resized_hand : image)
    (count : Z) (hand_type : string) (fs : gmap string image) :
  save_frequency self = 0 →
  Save_resized_hand self resized_hand count hand_type fs
  = Some (Raise ZeroDivisionError, fs).
Proof.
  intros Hz. unfold Save_resized_hand. rewrite Hz. cbn [Z.to_nat seq foldO].
  assert (∀ l : list string,
            foldO (λ (fs0 : gmap string image) (_ : string), Some fs0) fs l = Some fs)
    as -> by (induction l; [reflexivity | assumption]).
  reflexivity.
Qed.

Lemma Save_resized_hand_zero_frequency_witness :
  Save_resized_hand
    {| DATA_PATH := "data"; actions := ["hello"%string]; imgSize := 300;
       size_data := 100; save_frequency := 0; offset := 10 |}
    vga 3 "Left" taken_twice
  = Some (Raise ZeroDivisionError, taken_twice).
Proof. apply Save_resized_hand_zero_frequency. reflexivity. Defined.

End SaveMore.

Section SaveTwice.




End SaveTwice.

